(** * fetch_image.py: filename resolution and streaming download

    A shallow embedding of [fetch_image.py] and the properties of its
    filename resolver ([sanitize_filename], [filename_from_url],
    [extension_from_content_type], [unique_filepath], [generate_filename])
    and of its streaming downloader ([download_image], [main]).

    Python [str] values are sequences of Unicode code points: they are
    lists of [N].  Byte strings are lists of [Byte.byte].  The file system
    is a finite map from paths to nodes. *)

From Stdlib Require Import NArith List Ascii String DecimalString DecimalN.
From stdpp Require Import gmap list.

Local Open Scope N_scope.

(** ** Python strings *)

Abbreviation pystr := (list N).

(** Code point of an ASCII character, and the [str] of an ASCII literal. *)
Definition ch (a : ascii) : N := N_of_ascii a.
Arguments ch a%_char.

Definition py (s : string) : pystr := map N_of_ascii (list_ascii_of_string s).
Arguments py s%_string.

(** [c in chars] *)
Definition in_chars (chars : pystr) (c : N) : bool := existsb (N.eqb c) chars.

Fixpoint dropwhile (p : N -> bool) (s : pystr) : pystr :=
  match s with
  | [] => []
  | c :: t => if p c then dropwhile p t else s
  end.

Fixpoint takewhile (p : N -> bool) (s : pystr) : pystr :=
  match s with
  | [] => []
  | c :: t => if p c then c :: takewhile p t else []
  end.

(** [s.lstrip(chars)], [s.rstrip(chars)], [s.strip(chars)] *)
Definition str_lstrip (chars s : pystr) : pystr := dropwhile (in_chars chars) s.
Definition str_rstrip (chars s : pystr) : pystr :=
  rev (dropwhile (in_chars chars) (rev s)).
Definition str_strip (chars s : pystr) : pystr :=
  str_rstrip chars (str_lstrip chars s).

(** [s.lstrip(chars)] for a set of characters given by a predicate *)
Definition str_lstrip_by (p : N -> bool) (s : pystr) : pystr := dropwhile p s.

(** [s.startswith(prefix)] *)
Fixpoint startswith (s prefix : pystr) {struct prefix} : bool :=
  match prefix, s with
  | [], _ => true
  | p :: prefix', c :: s' => (c =? p) && startswith s' prefix'
  | _ :: _, [] => false
  end.

(** [s.endswith(suffix)] *)
Definition endswith (s suffix : pystr) : bool := startswith (rev s) (rev suffix).

(** Truth value of a string: [if s:] *)
Definition truthy (s : pystr) : bool :=
  match s with [] => false | _ :: _ => true end.

(** Truth value of a string or [None] *)
Definition truthy_opt (s : option pystr) : bool :=
  match s with Some s => truthy s | None => false end.

(** ** [sanitize_filename] *)

(** The characters of the class [[A-Za-z0-9._-]]. *)
Definition is_safe (c : N) : bool :=
  (ch "A" <=? c) && (c <=? ch "Z")
  || (ch "a" <=? c) && (c <=? ch "z")
  || (ch "0" <=? c) && (c <=? ch "9")
  || (c =? ch ".") || (c =? ch "_") || (c =? ch "-").

(** [re.sub(r"[^A-Za-z0-9._-]", "_", name)]: the pattern matches one
    character at a time, so every character outside the class is replaced
    on its own. *)
Definition sub_unsafe (name : pystr) : pystr :=
  map (fun c => if is_safe c then c else ch "_") name.

Definition sanitize_filename (name : pystr) : pystr :=
  let safe := sub_unsafe name in
  let stripped := str_strip (py "._-") safe in
  if truthy stripped then stripped else py "file".

(** A string matches [^[A-Za-z0-9._-]+$] when it is not empty and all its
    characters are in the class (no character of the class is a newline,
    so [$] can only match at the very end). *)
Definition matches_safe_name (s : pystr) : bool :=
  truthy s && forallb is_safe s.

(** ** More of [str] *)

(** [c in s] for a character [c] *)
Definition contains (s : pystr) (c : N) : bool := in_chars s c.

Definition is_not (c : N) : N -> bool := fun d => negb (d =? c).

(** [s.split(c)[0]] and [s.split(c, 1)[0]]: what precedes the first [c]
    (all of [s] when [c] does not occur). *)
Definition before_first (c : N) (s : pystr) : pystr := takewhile (is_not c) s.

(** [s.split(c, 1)[1]] when [c] occurs in [s]: what follows the first [c]. *)
Definition after_first (c : N) (s : pystr) : pystr := tail (dropwhile (is_not c) s).

(** What follows the last [c] (all of [s] when [c] does not occur):
    [s[s.rfind(c) + 1:]]. *)
Definition after_last (c : N) (s : pystr) : pystr :=
  rev (takewhile (is_not c) (rev s)).

(** The characters [str.strip()] removes: [str.isspace]. *)
Definition is_space (c : N) : bool :=
  (9 <=? c) && (c <=? 13) || (28 <=? c) && (c <=? 32)
  || (c =? 133) || (c =? 160) || (c =? 5760)
  || (8192 <=? c) && (c <=? 8202)
  || (c =? 8232) || (c =? 8233) || (c =? 8239) || (c =? 8287) || (c =? 12288).

(** [s.strip()] *)
Definition str_strip_ws (s : pystr) : pystr :=
  rev (dropwhile is_space (rev (dropwhile is_space s))).

(** [str.lower] on one code point.  It is exact below 256: the ASCII
    capitals and the capitals of ISO-8859-1 (U+00C0 to U+00DE without the
    multiplication sign U+00D7) move up by 32.  HTTP header values are
    decoded as ISO-8859-1 and URL schemes are ASCII, so the strings this
    program lowers hold no other code points; those are left unchanged
    here. *)
Definition lower_cp (c : N) : N :=
  if (ch "A" <=? c) && (c <=? ch "Z")
     || (192 <=? c) && (c <=? 214) || (216 <=? c) && (c <=? 222)
  then c + 32 else c.

Definition str_lower (s : pystr) : pystr := map lower_cp s.

(** [str(i)] for a non-negative integer: decimal digits, no leading zero. *)
Definition str_of_N (i : N) : pystr := py (NilEmpty.string_of_uint (N.to_uint i)).

(** ** Exceptions *)

(** The exceptions this program meets, all of them instances of
    [Exception].  [HTTPError], [Timeout] and [ConnectionError] are the
    classes of [requests.exceptions]; each is a [RequestException], and a
    [RequestException] is an [OSError].  (A [KeyboardInterrupt] is not an
    [Exception]; it comes from the user, not from a request, and is left
    out.) *)
Inductive exn : Type :=
  | HTTPError (status_code : N)
  | Timeout
  | ConnectionError
  | OtherRequestException
  | OSError
  | ValueError
  | OtherException.

(** A computation that returns or raises. *)
Inductive result (A : Type) : Type :=
  | Ok (a : A)
  | Raise (e : exn).
Arguments Ok {A} a.
Arguments Raise {A} e.

(** ** [urllib.parse.urlparse(url).path] (CPython 3.11) *)

Definition is_ascii_alpha (c : N) : bool :=
  (ch "A" <=? c) && (c <=? ch "Z") || (ch "a" <=? c) && (c <=? ch "z").

(** [scheme_chars] *)
Definition is_scheme_char (c : N) : bool :=
  is_ascii_alpha c || (ch "0" <=? c) && (c <=? ch "9")
  || (c =? ch "+") || (c =? ch "-") || (c =? ch ".").

(** [_WHATWG_C0_CONTROL_OR_SPACE]: the code points 0 to 32. *)
Definition is_c0_or_space (c : N) : bool := c <=? 32.

(** [_UNSAFE_URL_BYTES_TO_REMOVE]: tab, carriage return, line feed. *)
Definition is_unsafe_url_char (c : N) : bool := (c =? 9) || (c =? 13) || (c =? 10).

Definition uses_params : list pystr :=
  [ py ""; py "ftp"; py "hdl"; py "prospero"; py "http"; py "imap";
    py "https"; py "shttp"; py "rtsp"; py "rtspu"; py "sip"; py "sips";
    py "mms"; py "sftp"; py "tel" ].

(** The scheme and what follows it.  [i = url.find(':')]; the scheme is
    [url[:i]] when [i > 0], [url[0]] is an ASCII letter and every character
    of [url[:i]] is in [scheme_chars]. *)
Definition split_scheme (url : pystr) : pystr * pystr :=
  let pre := before_first (ch ":") url in
  if contains url (ch ":") && truthy pre
     && is_ascii_alpha (hd 0 url) && forallb is_scheme_char pre
  then (str_lower pre, after_first (ch ":") url)
  else ([], url).

(** [_splitnetloc(url, 2)]: the network location runs from index 2 to the
    first of [/], [?], [#]. *)
Definition splitnetloc (url : pystr) : pystr * pystr :=
  let delim c := negb (in_chars (py "/?#") c) in
  (takewhile delim (drop 2 url), dropwhile delim (drop 2 url)).

(** [_splitparams(url)[0]]: the [;parameters] of the last path segment are
    cut off. *)
Definition splitparams (url : pystr) : pystr :=
  if contains url (ch "/") then
    let seg := after_last (ch "/") url in
    take (length url - length seg) url ++ before_first (ch ";") seg
  else before_first (ch ";") url.

(** [os.path.basename(p)]: [p[p.rfind('/') + 1:]] *)
Definition basename (p : pystr) : pystr := after_last (ch "/") p.

(** ** The file system and the network *)

Abbreviation bytes := (list Byte.byte).

#[global] Instance byte_eq_decision : EqDecision Byte.byte := Byte.byte_eq_dec.

(** A path names a regular file with its contents, or a directory. *)
Inductive node : Type :=
  | File (content : bytes)
  | Dir.

(** What a server answers: the status code, the [Content-Type] header when
    there is one, and the body as [iter_content] hands it out, chunk by
    chunk, ended by an exception when the connection breaks. *)
Record response : Type := {
  status_code : N;
  content_type_header : option pystr;
  body_chunks : list bytes;
  body_error : option exn;
}.

(** A request raises or returns a response. *)
Abbreviation outcome := (result response).

(** What the program takes from its libraries and from the outside.

    Two checks of [urlsplit] on the network location are taken as given:
    [_check_bracketed_netloc] (the bracketed host must parse as an IPv6 or
    IPvFuture address) and the NFKC part of [_checknetloc] (a non-ASCII
    location must not normalise to one holding any of [/?#@:]); [true]
    means that the check passes.  [guess_extension] is
    [mimetypes.guess_extension], a lookup in the type table of the standard
    library and of the system's [mime.types] files.  [uuid4_hex] is the
    value of [uuid.uuid4().hex].  [requests_get] and [requests_head] are
    the answers of the network to a GET and to a HEAD request.
    [open_refused fs path] tells whether the operating system, with the
    file system [fs], refuses to open [path] for writing for another
    reason than [path] being a directory: a missing parent directory, an
    empty path, a name that is too long, no permission.
    [write_refused fs out_file chunk] tells whether the device, with the
    file system [fs], refuses [chunk] when it is written to [out_file]: no
    space left, a fault of the device. *)
Record environment : Type := {
  check_bracketed_netloc : pystr -> bool;
  checknetloc_nfkc : pystr -> bool;
  guess_extension : pystr -> option pystr;
  uuid4_hex : pystr;
  requests_get : pystr -> outcome;
  requests_head : pystr -> outcome;
  open_refused : gmap pystr node -> pystr -> bool;
  write_refused : gmap pystr node -> pystr -> bytes -> bool;
}.

Definition checknetloc (E : environment) (netloc : pystr) : bool :=
  negb (truthy netloc) || forallb (fun c => c <? 128) netloc
  || checknetloc_nfkc E netloc.

(** [urlsplit(url)]: scheme, network location and path (the query and the
    fragment are parsed off and not returned here). *)
Definition urlsplit (E : environment) (url : pystr) : result (pystr * pystr * pystr) :=
  let url := str_lstrip_by is_c0_or_space url in
  let url := List.filter (fun c => negb (is_unsafe_url_char c)) url in
  let '(scheme, url) := split_scheme url in
  let '(netloc, url) :=
    if startswith url (py "//") then splitnetloc url else ([], url) in
  let open := contains netloc (ch "[") in
  let close := contains netloc (ch "]") in
  if open && negb close || close && negb open then Raise ValueError
  else if open && close && negb (check_bracketed_netloc E netloc)
  then Raise ValueError
  else
    let url := if contains url (ch "#") then before_first (ch "#") url else url in
    let url := if contains url (ch "?") then before_first (ch "?") url else url in
    if checknetloc E netloc then Ok (scheme, netloc, url) else Raise ValueError.

(** [urlparse(url).path] *)
Definition urlparse_path (E : environment) (url : pystr) : result pystr :=
  match urlsplit E url with
  | Raise e => Raise e
  | Ok (scheme, _, path) =>
      if bool_decide (scheme ∈ uses_params) && contains path (ch ";")
      then Ok (splitparams path) else Ok path
  end.

(** ** [filename_from_url] *)

Definition filename_from_url (E : environment) (url : pystr) : result (option pystr) :=
  match urlparse_path E url with
  | Raise e => Raise e
  | Ok path =>
      let base := basename path in
      if truthy base then Ok (Some (sanitize_filename base)) else Ok None
  end.

(** ** [extension_from_content_type] *)

(** The local [main_type]: the text before the first [;], stripped and
    lowered. *)
Definition main_type_of (content_type : pystr) : pystr :=
  str_lower (str_strip_ws (before_first (ch ";") content_type)).

Definition extension_from_content_type (E : environment) (content_type : pystr) : pystr :=
  if negb (truthy content_type) then []
  else
    let main_type := main_type_of content_type in
    let ext := guess_extension E main_type in
    if truthy_opt ext then default [] ext
    else if startswith main_type (py "image/")
    then py "." ++ after_first (ch "/") main_type
    else [].

(** ** [unique_filepath] *)

(** [os.path.splitext(p)]: the extension runs from the last dot of the last
    path component, when some character of that component before this dot
    is not a dot. *)
Definition splitext (p : pystr) : pystr * pystr :=
  let name := basename p in
  if contains name (ch ".") then
    let ext_len := S (length (after_last (ch ".") name)) in
    let stem := take (length name - ext_len) name in
    if existsb (is_not (ch ".")) stem
    then (take (length p - ext_len) p, drop (length p - ext_len) p)
    else (p, [])
  else (p, []).

(** [os.path.join(a, b)] *)
Definition path_join (a b : pystr) : pystr :=
  if startswith b (py "/") then b
  else if negb (truthy a) || endswith a (py "/") then a ++ b
  else a ++ py "/" ++ b.

(** [os.path.exists(p)] *)
Definition path_exists (fs : gmap pystr node) (p : pystr) : bool :=
  bool_decide (is_Some (fs !! p)).

(** The loop of [unique_filepath].  Each unit of [fuel] pays for one test of
    the loop condition; [None] means that the fuel ran out. *)
Fixpoint unique_loop (fuel : nat) (fs : gmap pystr node)
    (directory base ext candidate : pystr) (i : N) : option pystr :=
  match fuel with
  | O => None
  | S fuel =>
      if path_exists fs (path_join directory candidate)
      then unique_loop fuel fs directory base ext
             (base ++ py "_" ++ str_of_N i ++ ext) (i + 1)
      else Some (path_join directory candidate)
  end.

Definition unique_filepath (fuel : nat) (fs : gmap pystr node)
    (directory filename : pystr) : option pystr :=
  let '(base, ext) := splitext filename in
  unique_loop fuel fs directory base ext filename 1.

(** The names the loop tries, in order: [filename], then [base_1ext],
    [base_2ext], ... *)
Definition candidate (filename : pystr) (k : nat) : pystr :=
  match k with
  | O => filename
  | S _ =>
      let '(base, ext) := splitext filename in
      base ++ py "_" ++ str_of_N (N.of_nat k) ++ ext
  end.

(** A directory that holds [filename] and its first [n] renamings. *)
Fixpoint crowded (directory filename : pystr) (n : nat) : gmap pystr node :=
  match n with
  | O => {[ path_join directory filename := File [] ]}
  | S m =>
      <[ path_join directory (candidate filename n) := File [] ]>
        (crowded directory filename m)
  end.

(** ** [generate_filename] *)

Definition generate_filename (E : environment) (ext : pystr) : pystr :=
  let name := py "image_" ++ uuid4_hex E in
  let ext := if truthy ext && negb (startswith ext (py ".")) then py "." ++ ext else ext in
  name ++ ext.

(** ** The state of the program and its effects *)

(** What the program prints. *)
Inductive message : Type :=
  | MsgBanner
  | MsgNoUrl
  | MsgWarning (content_type : pystr)
  | MsgSavingTo (output_path : pystr)
  | MsgCancelled
  | MsgDownloaded (output_path : pystr)
  | MsgHttpError (he : exn)
  | MsgTimeout
  | MsgConnectionError
  | MsgNetworkError (rexc : exn)
  | MsgFileError (os_err : exn)
  | MsgUnexpected (exc : exn).

(** The file system, the lines printed so far, and the chunks handed to
    [out_file.write] so far. *)
Record world : Type := {
  files : gmap pystr node;
  stdout : list message;
  written : list bytes;
}.

(** A statement runs in a world and returns or raises in a new world. *)
Definition M (A : Type) : Type := world -> result A * world.

Definition ret {A} (a : A) : M A := fun w => (Ok a, w).

Definition raise {A} (e : exn) : M A := fun w => (Raise e, w).

Definition bind {A B} (m : M A) (k : A -> M B) : M B :=
  fun w =>
    match m w with
    | (Ok a, w') => k a w'
    | (Raise e, w') => (Raise e, w')
    end.

Notation "x <- m ;; k" := (bind m (fun x => k))
  (at level 100, m at next level, right associativity).
Notation "m ;; k" := (bind m (fun _ => k))
  (at level 100, right associativity).

(** A pure computation that may raise, as a statement. *)
Definition lift {A} (r : result A) : M A := fun w => (r, w).

(** The classes named in the [except] clauses. *)
Inductive exc_class : Type :=
  | CHTTPError
  | CTimeout
  | CConnectionError
  | CRequestException
  | COSError
  | CException.

Definition isinstance (e : exn) (c : exc_class) : bool :=
  match c, e with
  | CException, _ => true
  | CHTTPError, HTTPError _ => true
  | CTimeout, Timeout => true
  | CConnectionError, ConnectionError => true
  | CRequestException,
    (HTTPError _ | Timeout | ConnectionError | OtherRequestException) => true
  | COSError,
    (HTTPError _ | Timeout | ConnectionError | OtherRequestException | OSError) => true
  | _, _ => false
  end.

(** [try: body  except <classes> as e: handler(e)]: the first clause whose
    class the exception is an instance of handles it; with no such clause
    the exception goes on. *)
Fixpoint select_clause {A} (e : exn) (clauses : list (exc_class * (exn -> M A)))
    : option (exn -> M A) :=
  match clauses with
  | [] => None
  | (c, handler) :: clauses =>
      if isinstance e c then Some handler else select_clause e clauses
  end.

Definition try_except {A} (body : M A) (clauses : list (exc_class * (exn -> M A))) : M A :=
  fun w =>
    match body w with
    | (Ok a, w') => (Ok a, w')
    | (Raise e, w') =>
        match select_clause e clauses with
        | Some handler => handler e w'
        | None => (Raise e, w')
        end
    end.

Definition print (m : message) : M unit :=
  fun w => (Ok tt, {| files := files w; stdout := stdout w ++ [m]; written := written w |}).

(** Whether [open(path, "wb")] raises: the path is a directory, or the
    operating system refuses it. *)
Definition open_fails (E : environment) (fs : gmap pystr node) (path : pystr) : bool :=
  match fs !! path with
  | Some Dir => true
  | _ => open_refused E fs path
  end.

(** [open(path, "wb")]: an [OSError] when the file cannot be opened, and
    nothing is created; else the file is created or truncated.  The
    handle is the path. *)
Definition open_wb (E : environment) (path : pystr) : M pystr :=
  fun w =>
    if open_fails E (files w) path then (Raise OSError, w)
    else (Ok path,
          {| files := <[path := File []]> (files w);
             stdout := stdout w; written := written w |}).

(** What [out_file.write(chunk)] makes of the node of the file. *)
Definition append_chunk (chunk : bytes) (n : node) : node :=
  match n with
  | File content => File (content ++ chunk)
  | Dir => Dir
  end.

(** [out_file.write(chunk)]: an [OSError] when the device refuses the
    chunk (no space left, a fault of the device); else the chunk goes to
    the end of the file.  The error is raised at the chunk that is
    refused, also when the interpreter would only meet it as it flushes
    its buffer; which part of a refused chunk reaches the file is not
    modelled, the file keeps what was written before. *)
Definition file_write (E : environment) (out_file : pystr) (chunk : bytes) : M unit :=
  fun w =>
    if write_refused E (files w) out_file chunk then (Raise OSError, w)
    else
      (Ok tt,
       {| files := alter (append_chunk chunk) out_file (files w);
          stdout := stdout w;
          written := written w ++ [chunk] |}).

(** [os.makedirs(path, exist_ok=True)] for a path of one component: nothing
    to do for a directory, an [OSError] for a regular file of that name,
    and a new directory otherwise.  The faults of the device (no
    permission, no space) are outside this model. *)
Definition makedirs (path : pystr) : M unit :=
  fun w =>
    match files w !! path with
    | Some Dir => (Ok tt, w)
    | Some (File _) => (Raise OSError, w)
    | None => (Ok tt,
               {| files := <[path := Dir]> (files w);
                  stdout := stdout w; written := written w |})
    end.

(** [resp.raise_for_status()] of [requests]: an [HTTPError] for the status
    codes 400 to 599. *)
Definition raise_for_status (resp : response) : M unit :=
  if (400 <=? status_code resp) && (status_code resp <? 600)
  then raise (HTTPError (status_code resp))
  else ret tt.

(** [resp.headers.get("Content-Type", "")] *)
Definition get_content_type (resp : response) : pystr :=
  default [] (content_type_header resp).

(** ** [download_image] *)

Definition FETCH_DIR : pystr := py "Fetched_Images".
Definition CHUNK_SIZE : N := 8192.

(** Truth value of a byte string: [if chunk:] *)
Definition chunk_truthy (chunk : bytes) : bool :=
  match chunk with [] => false | _ :: _ => true end.

(** [for chunk in resp.iter_content(CHUNK_SIZE): if chunk: out_file.write(chunk)]
    over the chunks the iterator yields. *)
Fixpoint write_chunks (E : environment) (out_file : pystr) (chunks : list bytes) : M unit :=
  match chunks with
  | [] => ret tt
  | chunk :: chunks =>
      (if chunk_truthy chunk then file_write E out_file chunk else ret tt) ;;
      write_chunks E out_file chunks
  end.

(** Lines 109 to 112: [with open(output_path, "wb") as out_file:] and the
    loop, for an iterator that yields [chunks] and then stops. *)
Definition save_body (E : environment) (output_path : pystr) (chunks : list bytes) : M unit :=
  out_file <- open_wb E output_path ;;
  write_chunks E out_file chunks.

(** The loop of [write_chunks] on the files and on the record of the calls
    of [write] alone: the outcome, the files and the calls made. *)
Fixpoint write_all (E : environment) (out_file : pystr) (chunks : list bytes)
    (fs : gmap pystr node) (calls : list bytes)
    : result unit * gmap pystr node * list bytes :=
  match chunks with
  | [] => (Ok tt, fs, calls)
  | chunk :: chunks =>
      if chunk_truthy chunk then
        if write_refused E fs out_file chunk then (Raise OSError, fs, calls)
        else write_all E out_file chunks
               (alter (append_chunk chunk) out_file fs) (calls ++ [chunk])
      else write_all E out_file chunks fs calls
  end.

(** Whether the device takes every chunk of the sequence, written in turn
    to [out_file]. *)
Fixpoint writes_accepted (E : environment) (fs : gmap pystr node) (out_file : pystr)
    (chunks : list bytes) : bool :=
  match chunks with
  | [] => true
  | chunk :: chunks =>
      if chunk_truthy chunk then
        negb (write_refused E fs out_file chunk)
        && writes_accepted E (alter (append_chunk chunk) out_file fs) out_file chunks
      else writes_accepted E fs out_file chunks
  end.

(** Whether [open(output_path, "wb")] returns and every chunk is taken. *)
Definition save_accepted (E : environment) (fs : gmap pystr node) (output_path : pystr)
    (chunks : list bytes) : bool :=
  negb (open_fails E fs output_path)
  && writes_accepted E (<[output_path := File []]> fs) output_path chunks.

(** The iterator of [download_image] yields the chunks of the response and
    then stops, or raises when the connection broke. *)
Definition download_image (E : environment) (url output_path : pystr) : M unit :=
  resp <- lift (requests_get E url) ;;
  raise_for_status resp ;;
  let content_type := get_content_type resp in
  (if negb (startswith (str_lower content_type) (py "image/"))
   then print (MsgWarning content_type) else ret tt) ;;
  save_body E output_path (body_chunks resp) ;;
  match body_error resp with
  | Some e => raise e
  | None => ret tt
  end.

(** ** [main] *)

(** Lines 131 to 138: the HEAD request and its [except] clause; the value
    is that of [chosen_ext] after it. *)
Definition head_probe (E : environment) (url : pystr) : M pystr :=
  try_except
    (head <- lift (requests_head E url) ;;
     raise_for_status head ;;
     let content_type := get_content_type head in
     ret (extension_from_content_type E content_type))
    [ (CRequestException, fun _ => ret []); (CException, fun _ => ret []) ].

(** Lines 127 to 150: the file name, sanitized, before it is made unique. *)
Definition main_filename (E : environment) (url : pystr) : M pystr :=
  filename <- lift (filename_from_url E url) ;;
  chosen_ext <- head_probe E url ;;
  let filename :=
    match filename with
    | Some filename =>
        if negb (contains filename (ch ".")) && truthy chosen_ext
        then filename ++ chosen_ext else filename
    | None => generate_filename E chosen_ext
    end in
  ret (sanitize_filename filename).

(** Lines 160 to 175: the download and its [except] clauses. *)
Definition main_download (E : environment) (url output_path : pystr) : M unit :=
  try_except
    (download_image E url output_path ;;
     print (MsgDownloaded output_path))
    [ (CHTTPError, fun he => print (MsgHttpError he));
      (CTimeout, fun _ => print MsgTimeout);
      (CConnectionError, fun _ => print MsgConnectionError);
      (CRequestException, fun rexc => print (MsgNetworkError rexc));
      (COSError, fun os_err => print (MsgFileError os_err));
      (CException, fun exc => print (MsgUnexpected exc)) ].

(** [main], from the stripped [url] and the stripped, lowered answer
    [confirm] of the user.  [None] means that the fuel of
    [unique_filepath] ran out.  An exception that no clause handles leaves
    [main]: the result is [Raise].  The two calls of [input()] are taken
    to have returned ([url] and [confirm] are what they returned): the end
    of the input, which raises, and an interrupt of the user, which the
    clause of line 177 handles, are outside this model. *)
Definition main (fuel : nat) (E : environment) (url confirm : pystr)
    (w : world) : option (result unit * world) :=
  match print MsgBanner w with
  | (_, w) =>
      if negb (truthy url) then Some (print MsgNoUrl w)
      else
        match (makedirs FETCH_DIR ;; main_filename E url) w with
        | (Raise e, w) => Some (Raise e, w)
        | (Ok filename, w) =>
            match unique_filepath fuel (files w) FETCH_DIR filename with
            | None => None
            | Some output_path =>
                Some ((print (MsgSavingTo output_path) ;;
                       if bool_decide (confirm = py "n") then print MsgCancelled
                       else main_download E url output_path) w)
            end
        end
  end.

(** ** Environments and worlds used in the statements *)

(** A few rows of the type table of [mimetypes]. *)
Definition sample_types (main_type : pystr) : option pystr :=
  if bool_decide (main_type = py "image/jpeg") then Some (py ".jpg")
  else if bool_decide (main_type = py "image/png") then Some (py ".png")
  else if bool_decide (main_type = py "image/gif") then Some (py ".gif")
  else if bool_decide (main_type = py "text/html") then Some (py ".html")
  else None.

(** [os.path.dirname(p)] *)
Definition dirname (p : pystr) : pystr :=
  let head := take (length p - length (basename p)) p in
  if truthy head && negb (forallb (fun c => c =? ch "/") head)
  then str_rstrip (py "/") head else head.

(** An operating system that refuses an empty path and a path whose
    directory is named and is no directory of the file system, and that
    opens every other path.  The device of [sample_env] takes every
    chunk. *)
Definition sample_open_refused (fs : gmap pystr node) (path : pystr) : bool :=
  negb (truthy path)
  || truthy (dirname path)
     && match fs !! dirname path with Some Dir => false | _ => true end.

(** An environment whose network gives the same answer to every GET and
    the same answer to every HEAD. *)
Definition sample_env (get head : outcome) : environment := {|
  check_bracketed_netloc := fun _ => true;
  checknetloc_nfkc := fun _ => true;
  guess_extension := sample_types;
  uuid4_hex := py "0123456789abcdef0123456789abcdef";
  requests_get := fun _ => get;
  requests_head := fun _ => head;
  open_refused := sample_open_refused;
  write_refused := fun _ _ _ => false;
|}.

(** [E] with another answer to the HEAD request. *)
Definition with_head (E : environment) (head : outcome) : environment := {|
  check_bracketed_netloc := check_bracketed_netloc E;
  checknetloc_nfkc := checknetloc_nfkc E;
  guess_extension := guess_extension E;
  uuid4_hex := uuid4_hex E;
  requests_get := requests_get E;
  requests_head := fun _ => head;
  open_refused := open_refused E;
  write_refused := write_refused E;
|}.

Definition bodyless (status : N) (content_type : option pystr) : response := {|
  status_code := status;
  content_type_header := content_type;
  body_chunks := [];
  body_error := None;
|}.

(** A world with the output directory and nothing else. *)
Definition fresh_world : world := {|
  files := {[ FETCH_DIR := Dir ]};
  stdout := [];
  written := [];
|}.

(** The value of [chosen_ext] after lines 131 to 138, read off the answer
    to the HEAD request. *)
Definition chosen_ext_of (E : environment) (url : pystr) : pystr :=
  match requests_head E url with
  | Raise _ => []
  | Ok head =>
      if (400 <=? status_code head) && (status_code head <? 600) then []
      else extension_from_content_type E (get_content_type head)
  end.

(** The value of [filename] after lines 141 to 147. *)
Definition composed_filename (E : environment) (filename : option pystr)
    (chosen_ext : pystr) : pystr :=
  match filename with
  | Some filename =>
      if negb (contains filename (ch ".")) && truthy chosen_ext
      then filename ++ chosen_ext else filename
  | None => generate_filename E chosen_ext
  end.

(** [E] with another answer to the GET request. *)
Definition with_get (E : environment) (get : outcome) : environment := {|
  check_bracketed_netloc := check_bracketed_netloc E;
  checknetloc_nfkc := checknetloc_nfkc E;
  guess_extension := guess_extension E;
  uuid4_hex := uuid4_hex E;
  requests_get := fun _ => get;
  requests_head := requests_head E;
  open_refused := open_refused E;
  write_refused := write_refused E;
|}.

(** [resp] with another [Content-Type] header (or none). *)
Definition retyped (resp : response) (content_type : option pystr) : response := {|
  status_code := status_code resp;
  content_type_header := content_type;
  body_chunks := body_chunks resp;
  body_error := body_error resp;
|}.

(** The line that the [except] clauses of lines 164 to 175 print for an
    exception. *)
Definition report (e : exn) : message :=
  match e with
  | HTTPError _ => MsgHttpError e
  | Timeout => MsgTimeout
  | ConnectionError => MsgConnectionError
  | OtherRequestException => MsgNetworkError e
  | OSError => MsgFileError e
  | ValueError | OtherException => MsgUnexpected e
  end.

(** * Properties *)

(** ** Strings: basic facts *)

Section StringFacts.

Variable p : N -> bool.

Lemma dropwhile_suffix s : ∃ pre, s = pre ++ dropwhile p s ∧ Forall (λ c, p c = true) pre.
Proof.
  induction s as [|c t [pre [E F]]]; simpl.
  - exists []. split; [done | constructor].
  - destruct (p c) eqn:Hc.
    + exists (c :: pre). split; [simpl; congruence | by constructor].
    + exists []. split; [done | constructor].
Qed.

Lemma dropwhile_head s : head (dropwhile p s) = None ∨ ∃ c, head (dropwhile p s) = Some c ∧ p c = false.
Proof.
  induction s as [|c t IH]; simpl; [by left|].
  destruct (p c) eqn:Hc; [done|]. right. exists c. done.
Qed.

Lemma dropwhile_id s c : head s = Some c → p c = false → dropwhile p s = s.
Proof. destruct s as [|d t]; simpl; [done|]. intros [= ->] ->. done. Qed.

Lemma dropwhile_Forall (Q : N → Prop) s : Forall Q s → Forall Q (dropwhile p s).
Proof.
  induction 1 as [|c t Hc Ht IH]; simpl; [constructor|].
  destruct (p c); [done | by constructor].
Qed.

(** Dropping from a string whose last character fails [p] keeps that
    last character, and so keeps the string non-empty. *)
Lemma dropwhile_snoc s c : p c = false → ∃ t, dropwhile p (s ++ [c]) = t ++ [c].
Proof.
  intros Hc. induction s as [|d s [t IH]]; simpl.
  - rewrite Hc. by exists [].
  - destruct (p d); [by exists t|]. by exists (d :: s).
Qed.

End StringFacts.

Lemma head_rev (s : pystr) : head (rev s) = last s.
Proof.
  induction s as [|c s _] using rev_ind; [done|].
  by rewrite rev_unit, last_snoc.
Qed.

Lemma last_rev (s : pystr) : last (rev s) = head s.
Proof. by rewrite <- head_rev, rev_involutive. Qed.

(** What [strip] returns: the argument without a prefix and a suffix made
    of characters of [chars], neither beginning nor ending with one. *)
Lemma str_strip_spec (chars s : pystr) :
  ∃ pre suf,
    s = pre ++ str_strip chars s ++ suf
    ∧ Forall (λ c, in_chars chars c = true) pre
    ∧ Forall (λ c, in_chars chars c = true) suf
    ∧ (∀ c, head (str_strip chars s) = Some c → in_chars chars c = false)
    ∧ (∀ c, last (str_strip chars s) = Some c → in_chars chars c = false).
Proof.
  unfold str_strip, str_rstrip, str_lstrip.
  set (p := in_chars chars).
  destruct (dropwhile_suffix p s) as [pre [Hs Hpre]].
  set (y := dropwhile p s) in *.
  destruct (dropwhile_suffix p (rev y)) as [fus [Hy Hfus]].
  exists pre, (rev fus). repeat split.
  - rewrite Hs at 1. f_equal.
    rewrite <- (rev_involutive y), Hy at 1. by rewrite rev_app_distr.
  - done.
  - apply Forall_forall. intros c Hc. rewrite Forall_forall in Hfus.
    apply Hfus. apply list_elem_of_In. apply list_elem_of_In in Hc.
    by apply in_rev.
  - intros c Hc.
    destruct (dropwhile_head p s) as [H | [d [H Hd]]]; fold y in H.
    + destruct y; [|discriminate]. simpl in Hc. discriminate.
    + destruct y as [|e t]; [discriminate|]. injection H as ->.
      simpl rev in Hc. destruct (dropwhile_snoc p (rev t) d Hd) as [t' Ht'].
      rewrite Ht', rev_unit in Hc. by injection Hc as <-.
  - intros c Hc. rewrite last_rev in Hc.
    destruct (dropwhile_head p (rev y)) as [H | [d [H Hd]]]; congruence.
Qed.

Lemma str_strip_fixed (chars s : pystr) :
  (∀ c, head s = Some c → in_chars chars c = false) →
  (∀ c, last s = Some c → in_chars chars c = false) →
  str_strip chars s = s.
Proof.
  intros Hh Hl. unfold str_strip, str_rstrip, str_lstrip.
  assert (E : dropwhile (in_chars chars) s = s).
  { destruct s as [|c t]; [done|]. apply dropwhile_id with c; [done|]. by apply Hh. }
  rewrite E. destruct (last s) as [c|] eqn:L.
  - rewrite (dropwhile_id _ (rev s) c); [apply rev_involutive | by rewrite head_rev | by apply Hl].
  - apply last_None in L. by subst s.
Qed.

Lemma str_strip_Forall (Q : N → Prop) (chars s : pystr) :
  Forall Q s → Forall Q (str_strip chars s).
Proof.
  intros H. destruct (str_strip_spec chars s) as (pre & suf & E & _).
  rewrite E in H. apply Forall_app in H as [_ H]. by apply Forall_app in H as [H _].
Qed.

(** ** [sanitize_filename] *)

Lemma is_safe_underscore : is_safe (ch "_") = true.
Proof. reflexivity. Qed.

Lemma sub_unsafe_safe (name : pystr) :
  Forall (λ c, is_safe c = true) (sub_unsafe name).
Proof.
  unfold sub_unsafe. apply Forall_forall. intros c Hc.
  apply list_elem_of_In, in_map_iff in Hc as (d & <- & _).
  destruct (is_safe d) eqn:Hd; [done | apply is_safe_underscore].
Qed.

Lemma sub_unsafe_fixed (s : pystr) :
  Forall (λ c, is_safe c = true) s → sub_unsafe s = s.
Proof.
  induction 1 as [|c t Hc _ IH]; [done|].
  change (sub_unsafe (c :: t))
    with ((if is_safe c then c else ch "_") :: sub_unsafe t).
  by rewrite Hc, IH.
Qed.

Lemma sub_unsafe_lookup (name : pystr) (i : nat) :
  sub_unsafe name !! i = (λ c, if is_safe c then c else ch "_") <$> name !! i.
Proof. unfold sub_unsafe. apply list_lookup_fmap. Qed.

Lemma truthy_true (s : pystr) : truthy s = true ↔ s ≠ [].
Proof. destruct s; simpl; split; congruence. Qed.

Lemma sanitize_filename_all_safe (name : pystr) :
  Forall (λ c, is_safe c = true) (sanitize_filename name).
Proof.
  unfold sanitize_filename.
  destruct (truthy _).
  - apply str_strip_Forall, sub_unsafe_safe.
  - vm_compute. repeat constructor.
Qed.

Lemma sanitize_filename_nonempty (name : pystr) : sanitize_filename name ≠ [].
Proof.
  unfold sanitize_filename.
  destruct (truthy _) eqn:T; [by apply truthy_true | discriminate].
Qed.

Lemma sanitize_filename_fixed (s : pystr) :
  s ≠ [] →
  Forall (λ c, is_safe c = true) s →
  (∀ c, head s = Some c → in_chars (py "._-") c = false) →
  (∀ c, last s = Some c → in_chars (py "._-") c = false) →
  sanitize_filename s = s.
Proof.
  intros Hne Hs Hh Hl. unfold sanitize_filename.
  rewrite sub_unsafe_fixed, str_strip_fixed by done.
  by apply truthy_true in Hne as ->.
Qed.

Lemma sanitize_filename_matches (name : pystr) :
  matches_safe_name (sanitize_filename name) = true.
Proof.
  unfold matches_safe_name. apply andb_true_iff. split.
  - apply truthy_true, sanitize_filename_nonempty.
  - apply forallb_forall. intros c Hc.
    pose proof (sanitize_filename_all_safe name) as H.
    rewrite Forall_forall in H. by apply H, list_elem_of_In.
Qed.

Lemma sanitize_filename_idem (name : pystr) :
  sanitize_filename (sanitize_filename name) = sanitize_filename name.
Proof.
  unfold sanitize_filename at 2 3.
  destruct (truthy (str_strip (py "._-") (sub_unsafe name))) eqn:T; [|reflexivity].
  destruct (str_strip_spec (py "._-") (sub_unsafe name)) as (_ & _ & _ & _ & _ & Hh & Hl).
  apply sanitize_filename_fixed; try done.
  - by apply truthy_true.
  - apply str_strip_Forall, sub_unsafe_safe.
Qed.

(** C1: for every string [name], [sanitize_filename name] matches
    [^[A-Za-z0-9._-]+$] and is not empty.  It is obtained in three steps:
    every character outside [[A-Za-z0-9._-]] is replaced by an underscore
    (position by position, the length is kept); the longest prefix and the
    longest suffix made of [.], [_] and [-] are cut off, which leaves a
    string [core] that neither begins nor ends with one of them; and an
    empty [core] is replaced by the literal ["file"]. *)
Theorem sanitize_filename_spec (name : pystr) :
  matches_safe_name (sanitize_filename name) = true
  ∧ sanitize_filename name ≠ []
  ∧ length (sub_unsafe name) = length name
  ∧ (∀ i : nat,
       sub_unsafe name !! i = (λ c, if is_safe c then c else ch "_") <$> name !! i)
  ∧ ∃ pre core suf,
      sub_unsafe name = pre ++ core ++ suf
      ∧ Forall (λ c, in_chars (py "._-") c = true) pre
      ∧ Forall (λ c, in_chars (py "._-") c = true) suf
      ∧ from_option (in_chars (py "._-")) false (head core) = false
      ∧ from_option (in_chars (py "._-")) false (last core) = false
      ∧ sanitize_filename name = (if truthy core then core else py "file").
Proof.
  split; [apply sanitize_filename_matches|].
  split; [apply sanitize_filename_nonempty|].
  split; [apply length_map|].
  split; [apply sub_unsafe_lookup|].
  destruct (str_strip_spec (py "._-") (sub_unsafe name))
    as (pre & suf & E & Hpre & Hsuf & Hh & Hl).
  exists pre, (str_strip (py "._-") (sub_unsafe name)), suf.
  repeat split; try done.
  - destruct (head _) as [c|]; [by apply Hh | done].
  - destruct (last _) as [c|]; [by apply Hl | done].
Qed.

(** C10: [sanitize_filename] is idempotent: sanitizing a sanitized name
    leaves it as it is.  So the second application in [main] does not
    change the name that [filename_from_url] returned, which is sanitized
    already. *)
Theorem sanitize_filename_idempotent (name : pystr) :
  sanitize_filename (sanitize_filename name) = sanitize_filename name
  ∧ ∀ (E : environment) (url : pystr),
      match filename_from_url E url with
      | Ok (Some filename) => sanitize_filename filename = filename
      | _ => True
      end.
Proof.
  split; [apply sanitize_filename_idem|].
  intros E url. unfold filename_from_url.
  destruct (urlparse_path E url) as [path|e]; [|done].
  destruct (truthy (basename path)); [|done].
  apply sanitize_filename_idem.
Qed.

(** ** [unique_filepath] *)

Lemma py_inj (s t : string) : py s = py t → s = t.
Proof.
  unfold py. intros H.
  rewrite <- (string_of_list_ascii_of_string s), <- (string_of_list_ascii_of_string t).
  f_equal. revert H.
  generalize (list_ascii_of_string s) (list_ascii_of_string t).
  induction l as [|a l IH]; intros [|b l'] H; try discriminate; [done|].
  injection H as Hab Hl. f_equal; [|by apply IH].
  by rewrite <- (ascii_N_embedding a), <- (ascii_N_embedding b), Hab.
Qed.

Lemma str_of_N_inj (i j : N) : str_of_N i = str_of_N j → i = j.
Proof.
  unfold str_of_N. intros H. apply py_inj in H.
  assert (U : N.to_uint i = N.to_uint j).
  { apply (f_equal NilEmpty.uint_of_string) in H.
    rewrite !NilEmpty.usu in H. congruence. }
  by rewrite <- (Unsigned.of_to i), <- (Unsigned.of_to j), U.
Qed.

Lemma candidate_succ (filename : pystr) (k : nat) :
  candidate filename (S k)
  = (splitext filename).1 ++ py "_" ++ str_of_N (N.of_nat (S k)) ++ (splitext filename).2.
Proof. unfold candidate. by destruct (splitext filename). Qed.

Lemma candidate_inj (filename : pystr) (j k : nat) :
  candidate filename (S j) = candidate filename (S k) → j = k.
Proof.
  rewrite !candidate_succ. intros H.
  apply app_inv_head, app_inv_head, app_inv_tail, str_of_N_inj in H. lia.
Qed.

Lemma candidate_head (filename : pystr) (j k : nat) :
  head (candidate filename (S j)) = head (candidate filename (S k)).
Proof.
  rewrite !candidate_succ. by destruct (splitext filename).1.
Qed.

Lemma path_join_inj (a b b' : pystr) :
  head b = head b' → path_join a b = path_join a b' → b = b'.
Proof.
  unfold path_join. intros Hh.
  assert (S : startswith b (py "/") = startswith b' (py "/")).
  { destruct b, b'; try done. simpl in Hh. injection Hh as ->. reflexivity. }
  rewrite <- S. destruct (startswith b (py "/")); [done|].
  destruct (negb (truthy a) || endswith a (py "/")); intros H.
  - by apply app_inv_head in H.
  - by apply app_inv_head, app_inv_head in H.
Qed.

Lemma path_exists_dom (fs : gmap pystr node) (p : pystr) :
  path_exists fs p = true ↔ p ∈ dom fs.
Proof.
  unfold path_exists. rewrite bool_decide_eq_true. symmetry. apply elem_of_dom.
Qed.

(** Below any index at which a test fails there is a least one. *)
Lemma least_false (f : nat → bool) (n : nat) :
  f n = false →
  ∃ k, (k <= n)%nat ∧ f k = false ∧ ∀ j, (j < k)%nat → f j = true.
Proof.
  induction n as [n IH] using lt_wf_ind. intros Hn.
  assert (D : (∀ j, (j < n)%nat → f j = true) ∨ ∃ j, (j < n)%nat ∧ f j = false).
  { clear. induction n as [|n [A | (j & Hj & Fj)]].
    - left. lia.
    - destruct (f n) eqn:Fn.
      + left. intros j Hj. destruct (decide (j = n)) as [->|]; [done|]. apply A. lia.
      + right. exists n. split; [lia | done].
    - right. exists j. split; [lia | done]. }
  destruct D as [A | (j & Hj & Fj)].
  - exists n. by repeat split.
  - destruct (IH j Hj Fj) as (k & Hk & Fk & Ak).
    exists k. repeat split; [lia | done | done].
Qed.

Lemma unique_loop_S (fuel : nat) (fs : gmap pystr node)
    (directory base ext cand : pystr) (i : N) :
  unique_loop (S fuel) fs directory base ext cand i
  = if path_exists fs (path_join directory cand)
    then unique_loop fuel fs directory base ext
           (base ++ py "_" ++ str_of_N i ++ ext) (i + 1)
    else Some (path_join directory cand).
Proof. reflexivity. Qed.

Section UniqueFilepath.

Variable fs : gmap pystr node.
Variables directory filename : pystr.

(** The path tried at the [k]-th test of the loop condition. *)
Let tried (k : nat) : pystr := path_join directory (candidate filename k).

Lemma tried_inj (j k : nat) : tried (S j) = tried (S k) → j = k.
Proof.
  intros H. apply path_join_inj in H; [by apply (candidate_inj filename) | apply candidate_head].
Qed.

(** A finite directory cannot hold all of [size fs + 1] different names. *)
Lemma some_candidate_unused :
  ∃ n, (n <= S (size fs))%nat ∧ path_exists fs (tried n) = false.
Proof.
  destruct (decide (Forall (λ j, path_exists fs (tried (S j)) = true) (seq 0 (S (size fs)))))
    as [All | NotAll].
  - exfalso.
    set (l := (λ j, tried (S j)) <$> seq 0 (S (size fs))).
    assert (ND : NoDup l).
    { apply NoDup_fmap_2; [|apply NoDup_seq]. intros j k. apply tried_inj. }
    assert (Sub : (list_to_set l : gset pystr) ⊆ dom fs).
    { intros p Hp. apply elem_of_list_to_set, list_elem_of_fmap in Hp as (j & -> & Hj).
      rewrite Forall_forall in All. by apply path_exists_dom, All. }
    apply subseteq_size in Sub.
    rewrite size_list_to_set, size_dom in Sub by done.
    unfold l in Sub. rewrite length_fmap, length_seq in Sub. lia.
  - apply not_Forall_Exists in NotAll; [|intros j; apply _].
    apply Exists_exists in NotAll as (j & Hj & Fj).
    apply elem_of_seq in Hj. exists (S j). split; [lia|].
    unfold compose in Fj. by apply not_true_is_false.
Qed.

(** The loop, entered at the [k]-th test, stops at the first unused path
    from there on. *)
Lemma unique_loop_first_unused (n k fuel : nat) :
  (∀ j, (k <= j < k + n)%nat → path_exists fs (tried j) = true) →
  path_exists fs (tried (k + n)) = false →
  (n < fuel)%nat →
  unique_loop fuel fs directory (splitext filename).1 (splitext filename).2
    (candidate filename k) (N.of_nat (S k))
  = Some (tried (k + n)).
Proof.
  revert k fuel. induction n as [|n IH]; intros k fuel Hused Hfree Hfuel.
  - destruct fuel as [|fuel]; [lia|]. rewrite unique_loop_S.
    rewrite Nat.add_0_r in Hfree. fold (tried k). by rewrite Hfree, Nat.add_0_r.
  - destruct fuel as [|fuel]; [lia|]. rewrite unique_loop_S.
    fold (tried k). rewrite Hused by lia.
    rewrite <- candidate_succ.
    replace (N.of_nat (S k) + 1) with (N.of_nat (S (S k))) by lia.
    rewrite IH; [f_equal; f_equal; lia | | | lia].
    + intros j Hj. apply Hused. lia.
    + by replace (S k + n)%nat with (k + S n)%nat by lia.
Qed.

(** The loop stops at an index whose path is unused when all paths
    before it exist, whatever fuel is left over. *)
Lemma unique_filepath_first_unused_at (k : nat) :
  path_exists fs (tried k) = false →
  (∀ j, (j < k)%nat → path_exists fs (tried j) = true) →
  ∀ fuel, (k < fuel)%nat →
    unique_filepath fuel fs directory filename = Some (tried k).
Proof.
  intros Fk Ak fuel Hfuel. unfold unique_filepath.
  pose proof (unique_loop_first_unused k 0 fuel) as L.
  destruct (splitext filename) as [base ext] eqn:E. simpl in L.
  apply L; [intros j Hj; apply Ak; lia | done | done].
Qed.

(** [unique_filepath] returns the first unused path of the sequence
    [filename], [base_1ext], [base_2ext], ..., after at most
    [size fs + 1] renamings. *)
Lemma unique_filepath_first_unused :
  ∃ k, (k <= S (size fs))%nat
    ∧ path_exists fs (tried k) = false
    ∧ (∀ j, (j < k)%nat → path_exists fs (tried j) = true)
    ∧ ∀ fuel, (k < fuel)%nat →
        unique_filepath fuel fs directory filename = Some (tried k).
Proof.
  destruct some_candidate_unused as (n & Hn & Fn).
  destruct (least_false (λ j, path_exists fs (tried j)) n Fn) as (k & Hk & Fk & Ak).
  exists k. repeat split; [lia | done | done |].
  by apply unique_filepath_first_unused_at.
Qed.

End UniqueFilepath.

(** The directory [Fetched_Images] crowded with [a.jpg], [a_1.jpg], ... *)
Section Crowded.

Let tried (k : nat) : pystr := path_join FETCH_DIR (candidate (py "a.jpg") k).

Lemma tried_a_succ (k : nat) :
  tried (S k) = py "Fetched_Images/a" ++ ch "_" :: str_of_N (N.of_nat (S k)) ++ py ".jpg".
Proof.
  unfold tried. rewrite candidate_succ.
  change (splitext (py "a.jpg")) with (py "a", py ".jpg"). reflexivity.
Qed.

Lemma tried_a_zero (k : nat) : tried (S k) ≠ tried 0.
Proof.
  rewrite tried_a_succ.
  change (tried 0) with (py "Fetched_Images/a" ++ ch "." :: py "jpg").
  intros H. apply app_inv_head in H. discriminate.
Qed.

Lemma tried_a_inj (j k : nat) : tried j = tried k → j = k.
Proof.
  destruct j as [|j], k as [|k]; intros H.
  - done.
  - symmetry in H. by apply tried_a_zero in H.
  - by apply tried_a_zero in H.
  - f_equal. by apply (tried_inj FETCH_DIR (py "a.jpg")).
Qed.

Lemma crowded_exists (n j : nat) :
  path_exists (crowded FETCH_DIR (py "a.jpg") n) (tried j) = true ↔ (j <= n)%nat.
Proof.
  unfold path_exists. rewrite bool_decide_eq_true.
  induction n as [|n IH]; simpl crowded.
  - rewrite lookup_singleton_is_Some. split.
    + intros H. apply (tried_a_inj 0 j) in H. lia.
    + intros H. by replace j with 0%nat by lia.
  - rewrite lookup_insert_is_Some. split.
    + intros [H | [_ H]]; [apply (tried_a_inj (S n) j) in H; lia | apply IH in H; lia].
    + intros H. destruct (decide (j = S n)) as [->|Hne]; [by left|].
      right. split; [|apply IH; lia].
      intros E. apply (tried_a_inj (S n) j) in E. lia.
Qed.

(** However many renamings are taken, the next one is returned. *)
Lemma crowded_next (n : nat) :
  unique_filepath (n + 2) (crowded FETCH_DIR (py "a.jpg") n) FETCH_DIR (py "a.jpg")
  = Some (tried (S n)).
Proof.
  apply unique_filepath_first_unused_at.
  - apply not_true_is_false. fold (tried (S n)). rewrite crowded_exists. lia.
  - intros j Hj. fold (tried j). apply crowded_exists. lia.
  - lia.
Qed.

End Crowded.

(** C2: for every directory state [fs], directory and file name,
    [unique_filepath] tries [filename], then [base_1ext], [base_2ext], ...
    in this order and returns the first of these paths that does not exist:
    there is an index [k] whose path is unused, all paths of smaller index
    exist, and that path is returned as soon as the fuel allows [k + 1]
    tests.  With no entry of that name the path [directory/filename] itself
    is returned; with [a.jpg] present and [a_1.jpg] absent the result is
    [a_1.jpg]; with both present and [a_2.jpg] absent it is [a_2.jpg]. *)
Theorem unique_filepath_spec (fs : gmap pystr node) (directory filename : pystr) :
  (∃ k : nat,
      (k <= S (size fs))%nat
      ∧ path_exists fs (path_join directory (candidate filename k)) = false
      ∧ (∀ j : nat, (j < k)%nat →
           path_exists fs (path_join directory (candidate filename j)) = true)
      ∧ ∀ fuel : nat, (k < fuel)%nat →
          unique_filepath fuel fs directory filename
          = Some (path_join directory (candidate filename k)))
  ∧ (if path_exists fs (path_join directory filename) then True
     else ∀ fuel : nat,
       unique_filepath (S fuel) fs directory filename
       = Some (path_join directory filename))
  ∧ (if path_exists fs (path_join directory (py "a.jpg"))
        && negb (path_exists fs (path_join directory (py "a_1.jpg")))
     then ∀ fuel : nat,
       unique_filepath (S (S fuel)) fs directory (py "a.jpg")
       = Some (path_join directory (py "a_1.jpg"))
     else True)
  ∧ (if path_exists fs (path_join directory (py "a.jpg"))
        && path_exists fs (path_join directory (py "a_1.jpg"))
        && negb (path_exists fs (path_join directory (py "a_2.jpg")))
     then ∀ fuel : nat,
       unique_filepath (S (S (S fuel))) fs directory (py "a.jpg")
       = Some (path_join directory (py "a_2.jpg"))
     else True)
  ∧ unique_filepath 3 ∅ (py "dir") (py "a.jpg") = Some (py "dir/a.jpg")
  ∧ unique_filepath 3 {[ py "dir/a.jpg" := File [] ]} (py "dir") (py "a.jpg")
    = Some (py "dir/a_1.jpg")
  ∧ unique_filepath 3
      (<[ py "dir/a_1.jpg" := File [] ]> {[ py "dir/a.jpg" := File [] ]})
      (py "dir") (py "a.jpg")
    = Some (py "dir/a_2.jpg").
Proof.
  split; [apply unique_filepath_first_unused|].
  split.
  { destruct (path_exists fs (path_join directory filename)) eqn:X; [done|].
    intros fuel. apply (unique_filepath_first_unused_at fs directory filename 0);
      [done | lia | lia]. }
  split.
  { destruct (path_exists fs (path_join directory (py "a.jpg"))) eqn:X0; [|done].
    destruct (path_exists fs (path_join directory (py "a_1.jpg"))) eqn:X1; [done|].
    intros fuel.
    apply (unique_filepath_first_unused_at fs directory (py "a.jpg") 1); [done | | lia].
    intros j Hj. by replace j with 0%nat by lia. }
  split.
  { destruct (path_exists fs (path_join directory (py "a.jpg"))) eqn:X0; [|done].
    destruct (path_exists fs (path_join directory (py "a_1.jpg"))) eqn:X1; [|done].
    destruct (path_exists fs (path_join directory (py "a_2.jpg"))) eqn:X2; [done|].
    intros fuel.
    apply (unique_filepath_first_unused_at fs directory (py "a.jpg") 2); [done | | lia].
    intros j Hj. destruct j as [|[|j]]; [done | done | lia]. }
  repeat split; vm_compute; reflexivity.
Qed.

(** The answer the code gives in a directory that already holds [a.jpg] and
    [a_1.jpg] to [a_10000.jpg]: the next name, and no error. *)
Lemma unique_filepath_beyond_10000 :
  unique_filepath (N.to_nat 10002)
    (crowded FETCH_DIR (py "a.jpg") (N.to_nat 10000)) FETCH_DIR (py "a.jpg")
  = Some (py "Fetched_Images/a_10001.jpg").
Proof.
  replace (N.to_nat 10002) with (N.to_nat 10000 + 2)%nat by lia.
  rewrite crowded_next, tried_a_succ.
  vm_compute. reflexivity.
Qed.

(** C8, amended: [unique_filepath] terminates for every finite directory
    state and file name: more than [size fs + 1] units of fuel always give
    a result, a path that does not exist, and more fuel gives the same.
    The code has no retry cap and no error of its own: whatever the number
    [n], in a directory that holds [a.jpg] and [a_1.jpg] to [a_n.jpg] it
    returns the next name. *)
Theorem unique_filepath_terminates (fs : gmap pystr node) (directory filename : pystr) :
  (∃ p : pystr,
      path_exists fs p = false
      ∧ ∀ fuel : nat, (S (size fs) < fuel)%nat →
          unique_filepath fuel fs directory filename = Some p)
  ∧ ∀ n : nat,
      unique_filepath (n + 2) (crowded FETCH_DIR (py "a.jpg") n) FETCH_DIR (py "a.jpg")
      = Some (path_join FETCH_DIR (candidate (py "a.jpg") (S n))).
Proof.
  split; [|apply crowded_next].
  destruct (unique_filepath_first_unused fs directory filename) as (k & Hk & Fk & _ & R).
  eexists. split; [exact Fk|]. intros fuel Hfuel. apply R. lia.
Qed.

(** ** The chunked writer *)

Lemma world_eta (w : world) :
  {| files := files w; stdout := stdout w; written := written w |} = w.
Proof. by destruct w. Qed.

Lemma insert_alter_same (m : gmap pystr node) (f : node → node) (k : pystr) (v : node) :
  <[k := v]> (alter f k m) = <[k := v]> m.
Proof.
  apply map_eq. intros j. destruct (decide (k = j)) as [->|Hne].
  - by rewrite !lookup_insert_eq.
  - by rewrite !lookup_insert_ne, lookup_alter_ne.
Qed.

Lemma bytes_filter_cons (chunk : bytes) (chunks : list bytes) :
  List.filter chunk_truthy (chunk :: chunks)
  = if chunk_truthy chunk then chunk :: List.filter chunk_truthy chunks
    else List.filter chunk_truthy chunks.
Proof. reflexivity. Qed.

Lemma write_chunks_all (E : environment) (out_file : pystr) (chunks : list bytes) (w : world) :
  write_chunks E out_file chunks w
  = (let '(r, fs, calls) := write_all E out_file chunks (files w) (written w) in
     (r, {| files := fs; stdout := stdout w; written := calls |})).
Proof.
  revert w. induction chunks as [|chunk chunks IH]; intros w.
  - cbn [write_chunks write_all ret]. by rewrite world_eta.
  - cbn [write_chunks write_all]. unfold bind at 1.
    destruct (chunk_truthy chunk).
    + unfold file_write at 1.
      destruct (write_refused E (files w) out_file chunk).
      * by rewrite world_eta.
      * by rewrite IH.
    + cbn [ret]. apply IH.
Qed.

Lemma write_all_accepted (E : environment) (out_file : pystr) (chunks : list bytes)
    (fs : gmap pystr node) (calls : list bytes) (content : bytes) :
  fs !! out_file = Some (File content) →
  writes_accepted E fs out_file chunks = true →
  write_all E out_file chunks fs calls
  = (Ok tt, <[out_file := File (content ++ concat chunks)]> fs,
     calls ++ List.filter chunk_truthy chunks).
Proof.
  revert fs calls content.
  induction chunks as [|chunk chunks IH]; intros fs calls content Hfs Hacc.
  - simpl. by rewrite !app_nil_r, insert_id.
  - cbn [write_all]. rewrite bytes_filter_cons.
    cbn [writes_accepted] in Hacc.
    destruct (chunk_truthy chunk) eqn:Ht.
    + apply andb_true_iff in Hacc as [Hw Hacc].
      apply negb_true_iff in Hw. rewrite Hw.
      rewrite (IH _ _ (content ++ chunk)); [| |exact Hacc].
      * rewrite insert_alter_same. cbn [concat].
        by rewrite (app_assoc content), <- (app_assoc calls).
      * rewrite lookup_alter_eq, Hfs. reflexivity.
    + destruct chunk; [|discriminate Ht]. cbn [concat app]. by apply IH.
Qed.

Lemma write_all_refused (E : environment) (out_file : pystr) (chunks : list bytes)
    (fs : gmap pystr node) (calls : list bytes) :
  writes_accepted E fs out_file chunks = false →
  (write_all E out_file chunks fs calls).1.1 = Raise OSError.
Proof.
  revert fs calls. induction chunks as [|chunk chunks IH]; intros fs calls Hacc.
  - discriminate Hacc.
  - cbn [write_all]. cbn [writes_accepted] in Hacc.
    destruct (chunk_truthy chunk).
    + destruct (write_refused E fs out_file chunk); [done|].
      apply IH. exact Hacc.
    + apply IH. exact Hacc.
Qed.

(** The loop touches no other entry than that of [out_file]. *)
Lemma write_all_frame (E : environment) (out_file : pystr) (chunks : list bytes)
    (fs : gmap pystr node) (calls : list bytes) (content : bytes) :
  fs !! out_file = Some (File content) →
  ∃ content', (write_all E out_file chunks fs calls).1.2 = <[out_file := File content']> fs.
Proof.
  revert fs calls content.
  induction chunks as [|chunk chunks IH]; intros fs calls content Hfs.
  - exists content. simpl. by rewrite insert_id.
  - cbn [write_all]. destruct (chunk_truthy chunk).
    + destruct (write_refused E fs out_file chunk).
      * exists content. simpl. by rewrite insert_id.
      * destruct (IH (alter (append_chunk chunk) out_file fs) (calls ++ [chunk])
                    (content ++ chunk)) as [content' Hc].
        { rewrite lookup_alter_eq, Hfs. reflexivity. }
        exists content'. rewrite Hc. apply insert_alter_same.
    + by apply (IH fs calls content).
Qed.

(** Lines 109 to 112: opening the file and writing the chunks. *)
Lemma save_body_run (E : environment) (output_path : pystr) (chunks : list bytes) (w : world) :
  save_body E output_path chunks w
  = if open_fails E (files w) output_path then (Raise OSError, w)
    else
      let '(r, fs, calls) :=
        write_all E output_path chunks (<[output_path := File []]> (files w)) (written w) in
      (r, {| files := fs; stdout := stdout w; written := calls |}).
Proof.
  unfold save_body, bind, open_wb.
  destruct (open_fails E (files w) output_path); [done|].
  by rewrite write_chunks_all.
Qed.

Lemma save_body_accepted (E : environment) (output_path : pystr) (chunks : list bytes)
    (w : world) :
  save_accepted E (files w) output_path chunks = true →
  save_body E output_path chunks w
  = (Ok tt,
     {| files := <[output_path := File (concat chunks)]> (files w);
        stdout := stdout w;
        written := written w ++ List.filter chunk_truthy chunks |}).
Proof.
  unfold save_accepted. intros [Ho Hacc]%andb_true_iff.
  apply negb_true_iff in Ho. rewrite save_body_run, Ho.
  rewrite (write_all_accepted _ _ _ _ _ []); [| apply lookup_insert_eq | exact Hacc].
  by rewrite insert_insert_eq.
Qed.

Lemma save_body_refused (E : environment) (output_path : pystr) (chunks : list bytes)
    (w : world) :
  save_accepted E (files w) output_path chunks = false →
  (save_body E output_path chunks w).1 = Raise OSError.
Proof.
  unfold save_accepted. intros Hacc. rewrite save_body_run.
  destruct (open_fails E (files w) output_path); [done|].
  cbn [negb andb] in Hacc.
  pose proof (write_all_refused E output_path chunks _ (written w) Hacc) as Hr.
  destruct (write_all E output_path chunks _ (written w)) as [[r fs] calls].
  exact Hr.
Qed.

(** What [download_image] does, case by case. *)
Lemma download_image_run (E : environment) (url output_path : pystr) (w : world) :
  download_image E url output_path w
  = match requests_get E url with
    | Raise e => (Raise e, w)
    | Ok resp =>
        if (400 <=? status_code resp) && (status_code resp <? 600)
        then (Raise (HTTPError (status_code resp)), w)
        else
          let out :=
            if negb (startswith (str_lower (get_content_type resp)) (py "image/"))
            then stdout w ++ [MsgWarning (get_content_type resp)]
            else stdout w in
          if open_fails E (files w) output_path
          then (Raise OSError, {| files := files w; stdout := out; written := written w |})
          else
            let '(r, fs, calls) :=
              write_all E output_path (body_chunks resp)
                (<[output_path := File []]> (files w)) (written w) in
            (match r with
             | Ok _ => match body_error resp with Some e => Raise e | None => Ok tt end
             | Raise e => Raise e
             end,
             {| files := fs; stdout := out; written := calls |})
    end.
Proof.
  unfold download_image. unfold bind at 1, lift.
  destruct (requests_get E url) as [resp|e]; [|done].
  unfold bind at 1, raise_for_status.
  destruct ((400 <=? status_code resp) && (status_code resp <? 600)); [done|].
  unfold ret at 1. unfold bind at 1.
  set (w1 := {| files := files w;
                stdout := if negb (startswith (str_lower (get_content_type resp)) (py "image/"))
                          then stdout w ++ [MsgWarning (get_content_type resp)]
                          else stdout w;
                written := written w |}).
  assert (P : (if negb (startswith (str_lower (get_content_type resp)) (py "image/"))
               then print (MsgWarning (get_content_type resp)) else ret tt) w
              = (Ok tt, w1)).
  { unfold w1. destruct (negb _); [done|]. unfold ret. by rewrite world_eta. }
  rewrite P. clear P. subst w1.
  unfold bind at 1. rewrite save_body_run. cbn [files stdout written].
  destruct (open_fails E (files w) output_path); [done|].
  destruct (write_all E output_path (body_chunks resp) _ (written w)) as [[r fs] calls].
  destruct r as [[]|e]; [|done].
  by destruct (body_error resp).
Qed.

(** A download whose status is no error and whose file is opened and
    written in full. *)
Lemma download_image_accepted (E : environment) (url output_path : pystr) (w : world)
    (resp : response) :
  requests_get E url = Ok resp →
  (400 <=? status_code resp) && (status_code resp <? 600) = false →
  save_accepted E (files w) output_path (body_chunks resp) = true →
  download_image E url output_path w
  = (match body_error resp with Some e => Raise e | None => Ok tt end,
     {| files := <[output_path := File (concat (body_chunks resp))]> (files w);
        stdout := if negb (startswith (str_lower (get_content_type resp)) (py "image/"))
                  then stdout w ++ [MsgWarning (get_content_type resp)]
                  else stdout w;
        written := written w ++ List.filter chunk_truthy (body_chunks resp) |}).
Proof.
  unfold save_accepted. intros Hget Hst [Ho Hacc]%andb_true_iff.
  apply negb_true_iff in Ho.
  rewrite download_image_run, Hget, Hst. cbn zeta. rewrite Ho.
  rewrite (write_all_accepted _ _ _ _ _ []); [| apply lookup_insert_eq | exact Hacc].
  by rewrite insert_insert_eq.
Qed.

(** A download that returns has had its file opened and written in full. *)
Lemma download_image_ok_accepted (E : environment) (url output_path : pystr) (w : world)
    (resp : response) :
  requests_get E url = Ok resp →
  (download_image E url output_path w).1 = Ok tt →
  (400 <=? status_code resp) && (status_code resp <? 600) = false
  ∧ save_accepted E (files w) output_path (body_chunks resp) = true
  ∧ body_error resp = None.
Proof.
  intros Hget. rewrite download_image_run, Hget.
  destruct ((400 <=? status_code resp) && (status_code resp <? 600)); [done|].
  cbn zeta. unfold save_accepted.
  destruct (open_fails E (files w) output_path); [done|].
  destruct (writes_accepted E (<[output_path:=File []]> (files w)) output_path
              (body_chunks resp)) eqn:Hacc.
  - rewrite (write_all_accepted _ _ _ _ _ []); [| apply lookup_insert_eq | exact Hacc].
    cbn [fst]. by destruct (body_error resp).
  - pose proof (write_all_refused E output_path (body_chunks resp) _ (written w) Hacc) as Hr.
    destruct (write_all E output_path (body_chunks resp) _ (written w)) as [[r fs] calls].
    cbn [fst] in Hr |- *. by rewrite Hr.
Qed.

(** C3: the chunked writer of [download_image] (lines 109 to 112), for
    every finite sequence of chunks.  When [open] raises (the path is a
    directory, or the operating system refuses it), the writer raises and
    nothing is created; when the device refuses a chunk, the writer raises
    too.  When [open] returns and every chunk is taken, the file is
    created or truncated and ends up holding the concatenation of the
    chunks, byte for byte; the calls of [write] are the non-empty chunks
    in their order of arrival, the empty ones are skipped; another split
    of the same bytes into chunks, taken as well, gives the same files;
    and a download whose status is not an error leaves the concatenation
    of the received chunks in the file.  Three chunks of 8192, 8192 and
    500 bytes are all written, in this order, 16884 bytes in all. *)
Theorem chunked_writer_roundtrip (E : environment) (output_path : pystr)
    (chunks : list bytes) (w : world) :
  (if save_accepted E (files w) output_path chunks
   then save_body E output_path chunks w
        = (Ok tt,
           {| files := <[output_path := File (concat chunks)]> (files w);
              stdout := stdout w;
              written := written w ++ List.filter chunk_truthy chunks |})
   else (save_body E output_path chunks w).1 = Raise OSError)
  ∧ (if open_fails E (files w) output_path
     then save_body E output_path chunks w = (Raise OSError, w)
     else True)
  ∧ (∀ chunks' : list bytes,
       if bool_decide (concat chunks' = concat chunks)
          && save_accepted E (files w) output_path chunks'
          && save_accepted E (files w) output_path chunks
       then files (save_body E output_path chunks' w).2
            = files (save_body E output_path chunks w).2
       else True)
  ∧ (∀ url : pystr,
       match requests_get E url with
       | Raise _ => True
       | Ok resp =>
           if (400 <=? status_code resp) && (status_code resp <? 600)
              || negb (save_accepted E (files w) output_path (body_chunks resp))
           then True
           else files (download_image E url output_path w).2 !! output_path
                = Some (File (concat (body_chunks resp)))
                ∧ written (download_image E url output_path w).2
                  = written w ++ List.filter chunk_truthy (body_chunks resp)
       end)
  ∧ (∀ c1 c2 c3 : bytes,
       if (N.of_nat (length c1) =? CHUNK_SIZE) && (N.of_nat (length c2) =? CHUNK_SIZE)
          && (N.of_nat (length c3) =? 500)
       then List.filter chunk_truthy [c1; c2; c3] = [c1; c2; c3]
            ∧ concat [c1; c2; c3] = c1 ++ c2 ++ c3
            ∧ N.of_nat (length (concat [c1; c2; c3])) = 16884
       else True).
Proof.
  split.
  { destruct (save_accepted E (files w) output_path chunks) eqn:Hacc.
    - by apply save_body_accepted.
    - by apply save_body_refused. }
  split.
  { rewrite save_body_run. by destruct (open_fails E (files w) output_path). }
  split.
  { intros chunks'. destruct (_ && _) eqn:Hs; [|done].
    apply andb_true_iff in Hs as [Hs H2]. apply andb_true_iff in Hs as [Hc H1].
    apply bool_decide_eq_true in Hc.
    rewrite (save_body_accepted _ _ _ _ H1), (save_body_accepted _ _ _ _ H2).
    cbn [snd files]. by rewrite Hc. }
  split.
  { intros url. destruct (requests_get E url) as [resp|e] eqn:Hget; [|done].
    destruct ((400 <=? status_code resp) && (status_code resp <? 600)) eqn:Hst; [done|].
    cbn [orb].
    destruct (save_accepted E (files w) output_path (body_chunks resp)) eqn:Hacc; [|done].
    cbn [negb].
    rewrite (download_image_accepted E url output_path w resp Hget Hst Hacc).
    cbn [snd files written]. split; [apply lookup_insert_eq | done]. }
  intros c1 c2 c3.
  destruct (_ && _) eqn:Hs; [|done].
  apply andb_true_iff in Hs as [Hs H3]. apply andb_true_iff in Hs as [H1 H2].
  apply N.eqb_eq in H1, H2, H3. unfold CHUNK_SIZE in *.
  split; [|split].
  - destruct c1, c2, c3; try done; simpl in *; lia.
  - simpl. by rewrite app_nil_r.
  - simpl. rewrite app_nil_r, !length_app. lia.
Qed.

Lemma chunked_writer_roundtrip_sample :
  save_body (sample_env (Raise Timeout) (Raise Timeout)) (py "Fetched_Images/img")
    [[Byte.x89; Byte.x50]; []; [Byte.x4e]] fresh_world
  = (Ok tt,
     {| files := <[py "Fetched_Images/img" := File [Byte.x89; Byte.x50; Byte.x4e]]>
                   (files fresh_world);
        stdout := stdout fresh_world;
        written := written fresh_world ++ [[Byte.x89; Byte.x50]; [Byte.x4e]] |}).
Proof.
  exact (proj1 (chunked_writer_roundtrip (sample_env (Raise Timeout) (Raise Timeout))
                  (py "Fetched_Images/img") [[Byte.x89; Byte.x50]; []; [Byte.x4e]]
                  fresh_world)).
Defined.

(** A download that meets an error status stops before the file is opened. *)
Lemma download_image_error_status (E : environment) (url output_path : pystr)
    (w : world) (resp : response) :
  requests_get E url = Ok resp →
  400 <= status_code resp < 600 →
  download_image E url output_path w = (Raise (HTTPError (status_code resp)), w).
Proof.
  intros G [Hlo Hhi]. rewrite download_image_run, G.
  apply N.leb_le in Hlo. apply N.ltb_lt in Hhi. by rewrite Hlo, Hhi.
Qed.

(** C4, amended: for every response with a status from 400 to 599 (such as
    404), [download_image] raises an [HTTPError] that carries the status
    code, and [main] reports it as an HTTP error; the check comes before
    the output file is opened, so the files are as they were, and nothing
    was written. *)
Theorem download_image_http_error (E : environment) (url output_path : pystr)
    (w : world) (resp : response) :
  requests_get E url = Ok resp →
  400 <= status_code resp < 600 →
  download_image E url output_path w = (Raise (HTTPError (status_code resp)), w)
  ∧ main_download E url output_path w
    = (Ok tt,
       {| files := files w;
          stdout := stdout w ++ [MsgHttpError (HTTPError (status_code resp))];
          written := written w |}).
Proof.
  intros G Hs. pose proof (download_image_error_status E url output_path w resp G Hs) as D.
  split; [done|].
  unfold main_download, try_except. unfold bind at 1. by rewrite D.
Qed.

Lemma download_image_http_error_404 :
  let E := sample_env (Ok (bodyless 404 (Some (py "text/html")))) (Raise Timeout) in
  let w := fresh_world in
  download_image E (py "https://x/img") (py "Fetched_Images/img") w
  = (Raise (HTTPError 404), w)
  ∧ main_download E (py "https://x/img") (py "Fetched_Images/img") w
    = (Ok tt,
       {| files := files w;
          stdout := stdout w ++ [MsgHttpError (HTTPError 404)];
          written := written w |}).
Proof.
  intros E w.
  apply (download_image_http_error E (py "https://x/img") (py "Fetched_Images/img") w
           (bodyless 404 (Some (py "text/html")))).
  - reflexivity.
  - simpl. lia.
Defined.

(** A response with status 304 is not a 2xx response, and yet the download
    succeeds and creates the file. *)
Lemma download_image_304_saves :
  download_image (sample_env (Ok (bodyless 304 None)) (Raise Timeout))
    (py "https://x/img") (py "Fetched_Images/img") fresh_world
  = (Ok tt,
     {| files := <[ py "Fetched_Images/img" := File [] ]> {[ FETCH_DIR := Dir ]};
        stdout := [MsgWarning []];
        written := [] |}).
Proof. rewrite download_image_run. vm_compute. reflexivity. Qed.

(** ** The HEAD probe and the composition of the file name *)

Lemma head_probe_run (E : environment) (url : pystr) (w : world) :
  head_probe E url w = (Ok (chosen_ext_of E url), w).
Proof.
  unfold head_probe, chosen_ext_of, try_except, bind, lift, raise_for_status.
  destruct (requests_head E url) as [head|e].
  - by destruct ((400 <=? status_code head) && (status_code head <? 600)).
  - by destruct e.
Qed.

Lemma main_filename_run (E : environment) (url : pystr) (w : world) :
  main_filename E url w
  = match filename_from_url E url with
    | Raise e => (Raise e, w)
    | Ok filename =>
        (Ok (sanitize_filename (composed_filename E filename (chosen_ext_of E url))), w)
    end.
Proof.
  unfold main_filename. unfold bind at 1, lift.
  destruct (filename_from_url E url) as [filename|e]; [|done].
  unfold bind at 1. rewrite head_probe_run. reflexivity.
Qed.

Lemma write_all_with_head (E : environment) (head : outcome) (out_file : pystr)
    (chunks : list bytes) (fs : gmap pystr node) (calls : list bytes) :
  write_all (with_head E head) out_file chunks fs calls
  = write_all E out_file chunks fs calls.
Proof.
  revert fs calls. induction chunks as [|chunk chunks IH]; intros fs calls; [done|].
  cbn [write_all write_refused with_head].
  destruct (chunk_truthy chunk); [|apply IH].
  destruct (write_refused E fs out_file chunk); [done|apply IH].
Qed.

Lemma write_all_with_get (E : environment) (get : outcome) (out_file : pystr)
    (chunks : list bytes) (fs : gmap pystr node) (calls : list bytes) :
  write_all (with_get E get) out_file chunks fs calls
  = write_all E out_file chunks fs calls.
Proof.
  revert fs calls. induction chunks as [|chunk chunks IH]; intros fs calls; [done|].
  cbn [write_all write_refused with_get].
  destruct (chunk_truthy chunk); [|apply IH].
  destruct (write_refused E fs out_file chunk); [done|apply IH].
Qed.

(** The download does not look at the answer to the HEAD request. *)
Lemma main_download_with_head (E : environment) (head : outcome) (url output_path : pystr)
    (w : world) :
  main_download (with_head E head) url output_path w = main_download E url output_path w.
Proof.
  assert (D : download_image (with_head E head) url output_path w
              = download_image E url output_path w).
  { rewrite !download_image_run. cbn [requests_get with_head].
    destruct (requests_get E url) as [resp|e]; [|done].
    destruct ((400 <=? status_code resp) && (status_code resp <? 600)); [done|].
    cbn zeta.
    change (open_fails (with_head E head) (files w) output_path)
      with (open_fails E (files w) output_path).
    destruct (open_fails E (files w) output_path); [done|].
    by rewrite write_all_with_head. }
  unfold main_download, try_except, bind. by rewrite D.
Qed.

Lemma main_filename_with_head (E : environment) (head : outcome) (url : pystr) (w : world) :
  main_filename (with_head E head) url w
  = match filename_from_url E url with
    | Raise e => (Raise e, w)
    | Ok filename =>
        (Ok (sanitize_filename
               (composed_filename E filename (chosen_ext_of (with_head E head) url))), w)
    end.
Proof. by rewrite main_filename_run. Qed.

(** C9: whatever the HEAD request does, the probe returns: an exception
    of the request or an error status gives the empty extension, any other
    answer gives the extension of its [Content-Type].  So [main_filename]
    raises only when [filename_from_url] does, and with a probe that raised
    [main] does exactly what it does with an answer that has no
    [Content-Type]. *)
Theorem head_probe_absorbs (E : environment) (url : pystr) (w : world) :
  head_probe E url w
  = (Ok match requests_head E url with
        | Raise _ => []
        | Ok head =>
            if (400 <=? status_code head) && (status_code head <? 600) then []
            else extension_from_content_type E (get_content_type head)
        end, w)
  ∧ (∀ e : exn, head_probe (with_head E (Raise e)) url w = (Ok [], w))
  ∧ match filename_from_url E url with
    | Raise e => main_filename E url w = (Raise e, w)
    | Ok _ => ∃ filename, main_filename E url w = (Ok filename, w)
    end
  ∧ (∀ (e : exn) (fuel : nat) (confirm : pystr),
       main fuel (with_head E (Raise e)) url confirm w
       = main fuel (with_head E (Ok (bodyless 200 None))) url confirm w).
Proof.
  split; [apply head_probe_run|].
  split; [intros e; by rewrite head_probe_run|].
  split.
  { rewrite main_filename_run. destruct (filename_from_url E url); [by eexists | done]. }
  intros e fuel confirm. unfold main.
  destruct (print MsgBanner w) as [r w1].
  destruct (negb (truthy url)); [done|].
  unfold bind at 1 3.
  destruct (makedirs FETCH_DIR w1) as [[[]|e'] w2]; [|done].
  rewrite !main_filename_with_head.
  destruct (filename_from_url E url) as [filename|e0]; [|done].
  change (chosen_ext_of (with_head E (Raise e)) url)
    with (chosen_ext_of (with_head E (Ok (bodyless 200 None))) url).
  destruct (unique_filepath fuel (files w2) FETCH_DIR _) as [output_path|]; [|done].
  unfold bind, print. lazy beta iota.
  destruct (bool_decide (confirm = py "n")); [done|].
  by rewrite !main_download_with_head.
Qed.

Lemma generate_filename_run (E : environment) (ext : pystr) :
  generate_filename E ext
  = py "image_" ++ uuid4_hex E
    ++ (if truthy ext && negb (startswith ext (py ".")) then py "." ++ ext else ext).
Proof. unfold generate_filename. by rewrite <- app_assoc. Qed.

(** C6: the file name that [main] hands to [unique_filepath].  When
    [filename_from_url] gives a name without a dot and the probe gave an
    extension, the extension is appended and the result is sanitized; a
    name with a dot, or no extension, leaves the name as it is; when
    [filename_from_url] gives nothing, the name is [image_], the hexadecimal
    identifier and the extension of the probe (nothing when there is none),
    sanitized.  The name is always a sanitized one: it matches the safe
    pattern and sanitizing it again changes nothing, and this is the name
    [main] makes unique.  For ["https://x/img"] and a probe answered with
    [Content-Type: image/jpeg], the name is [img] followed by the extension
    that the type table gives for [image/jpeg], so [img.jpg] with the
    standard table, and the path is [Fetched_Images/img.jpg]. *)
Theorem main_filename_policy (E : environment) (url : pystr) (w : world) :
  main_filename E url w
  = match filename_from_url E url with
    | Raise e => (Raise e, w)
    | Ok (Some filename) =>
        (Ok (sanitize_filename
               (if negb (contains filename (ch ".")) && truthy (chosen_ext_of E url)
                then filename ++ chosen_ext_of E url else filename)), w)
    | Ok None =>
        (Ok (sanitize_filename (generate_filename E (chosen_ext_of E url))), w)
    end
  ∧ generate_filename E [] = py "image_" ++ uuid4_hex E
  ∧ (∀ ext : pystr, generate_filename E (ch "." :: ext) = py "image_" ++ uuid4_hex E ++ ch "." :: ext)
  ∧ match main_filename E url w with
    | (Ok filename, _) =>
        matches_safe_name filename = true ∧ sanitize_filename filename = filename
    | (Raise _, _) => True
    end
  ∧ (∀ (fuel : nat) (confirm : pystr),
       let w1 := (print MsgBanner w).2 in
       if truthy url then
         match makedirs FETCH_DIR w1, filename_from_url E url with
         | (Raise e, w2), _ | (Ok _, w2), Raise e =>
             main fuel E url confirm w = Some (Raise e, w2)
         | (Ok _, w2), Ok name =>
             let filename :=
               sanitize_filename (composed_filename E name (chosen_ext_of E url)) in
             main fuel E url confirm w
             = match unique_filepath fuel (files w2) FETCH_DIR filename with
               | None => None
               | Some output_path =>
                   Some ((print (MsgSavingTo output_path) ;;
                          if bool_decide (confirm = py "n") then print MsgCancelled
                          else main_download E url output_path) w2)
               end
         end
       else main fuel E url confirm w = Some (print MsgNoUrl w1))
  ∧ (let E' := with_head E (Ok (bodyless 200 (Some (py "image/jpeg")))) in
     filename_from_url E' (py "https://x/img") = Ok (Some (py "img"))
     ∧ match guess_extension E (py "image/jpeg") with
       | Some ext =>
           main_filename E' (py "https://x/img") w
           = (Ok (sanitize_filename (py "img" ++ if truthy ext then ext else py ".jpeg")), w)
       | None => main_filename E' (py "https://x/img") w = (Ok (py "img.jpeg"), w)
       end
     ∧ if bool_decide (guess_extension E (py "image/jpeg") = Some (py ".jpg"))
       then main_filename E' (py "https://x/img") w = (Ok (py "img.jpg"), w)
       else True)
  ∧ main 1 (sample_env (Raise Timeout) (Ok (bodyless 200 (Some (py "image/jpeg")))))
      (py "https://x/img") (py "n") fresh_world
    = Some (Ok tt,
            {| files := {[ FETCH_DIR := Dir ]};
               stdout := [MsgBanner; MsgSavingTo (py "Fetched_Images/img.jpg"); MsgCancelled];
               written := [] |}).
Proof.
  split.
  { rewrite main_filename_run. by destruct (filename_from_url E url) as [[?|]|]. }
  split; [by rewrite generate_filename_run, app_nil_r|].
  split; [intros ext; by rewrite generate_filename_run|].
  split.
  { rewrite main_filename_run. destruct (filename_from_url E url); [|done].
    split; [apply sanitize_filename_matches | apply sanitize_filename_idem]. }
  split.
  { intros fuel confirm. unfold main. cbn zeta.
    destruct (print MsgBanner w) as [r w1] eqn:P. cbn [snd].
    destruct (truthy url) eqn:U; cbn [negb]; [|done].
    change ((makedirs FETCH_DIR ;; main_filename E url) w1)
      with (match makedirs FETCH_DIR w1 with
            | (Ok _, w') => main_filename E url w'
            | (Raise e, w') => (Raise e, w')
            end).
    destruct (makedirs FETCH_DIR w1) as [[[]|e'] w2] eqn:Mk; [|done].
    rewrite main_filename_run.
    by destruct (filename_from_url E url) as [filename|e]. }
  split.
  { cbn zeta.
    assert (F : filename_from_url
                  (with_head E (Ok (bodyless 200 (Some (py "image/jpeg")))))
                  (py "https://x/img") = Ok (Some (py "img"))) by reflexivity.
    split; [exact F|].
    assert (R : main_filename
                  (with_head E (Ok (bodyless 200 (Some (py "image/jpeg")))))
                  (py "https://x/img") w
                = (Ok (sanitize_filename
                         (py "img" ++ match guess_extension E (py "image/jpeg") with
                                      | Some ext => if truthy ext then ext else py ".jpeg"
                                      | None => py ".jpeg"
                                      end)), w)).
    { rewrite main_filename_run, F.
      unfold composed_filename, chosen_ext_of. cbn [requests_head with_head].
      change ((400 <=? status_code (bodyless 200 (Some (py "image/jpeg"))))
              && (status_code (bodyless 200 (Some (py "image/jpeg"))) <? 600)) with false.
      cbv iota.
      change (get_content_type (bodyless 200 (Some (py "image/jpeg")))) with (py "image/jpeg").
      unfold extension_from_content_type.
      change (negb (truthy (py "image/jpeg"))) with false. cbv iota.
      change (main_type_of (py "image/jpeg")) with (py "image/jpeg"). cbn [guess_extension with_head].
      change (negb (contains (py "img") (ch "."))) with true.
      destruct (guess_extension E (py "image/jpeg")) as [[|c ext]|]; reflexivity. }
    split.
    - rewrite R. by destruct (guess_extension E (py "image/jpeg")).
    - case_bool_decide as G; [|done]. rewrite R, G. reflexivity. }
  vm_compute. reflexivity.
Qed.

(** ** Splitting strings at a character *)

Section SplitFacts.

Variable p : N → bool.

Lemma takewhile_all s : Forall (λ c, p c = true) s → takewhile p s = s.
Proof. induction 1 as [|c t Hc _ IH]; simpl; [done|]. by rewrite Hc, IH. Qed.

Lemma takewhile_app_stop s c t :
  Forall (λ c, p c = true) s → p c = false → takewhile p (s ++ c :: t) = s.
Proof.
  intros Hs Hc. induction Hs as [|d s Hd _ IH]; simpl; [by rewrite Hc|].
  by rewrite Hd, IH.
Qed.

Lemma dropwhile_app_stop s c t :
  p c = false → dropwhile p (s ++ c :: t) = dropwhile p s ++ c :: t.
Proof.
  intros Hc. induction s as [|d s IH]; simpl; [by rewrite Hc|].
  by destruct (p d).
Qed.

(** Cutting at a character that stops [p] can be done in the first part. *)
Lemma takewhile_app_cut s c t :
  p c = false → takewhile p (s ++ c :: t) = takewhile p s.
Proof.
  intros Hc. induction s as [|d s IH]; simpl; [by rewrite Hc|].
  destruct (p d); [by rewrite IH | done].
Qed.

Lemma takewhile_Forall (Q : N → Prop) s : Forall Q s → Forall Q (takewhile p s).
Proof.
  induction 1 as [|c t Hc _ IH]; simpl; [constructor|].
  destruct (p c); by constructor.
Qed.

Lemma takewhile_dropwhile s : takewhile p s ++ dropwhile p s = s.
Proof. induction s as [|c t IH]; simpl; [done|]. destruct (p c); simpl; congruence. Qed.

End SplitFacts.

Lemma contains_false (s : pystr) (c : N) :
  contains s c = false ↔ Forall (λ d, is_not c d = true) s.
Proof.
  unfold contains, in_chars, is_not. induction s as [|d s IH]; simpl.
  - split; [constructor | done].
  - rewrite orb_false_iff, IH, Forall_cons, negb_true_iff, (N.eqb_sym c d). tauto.
Qed.

Lemma contains_app (s t : pystr) (c : N) :
  contains (s ++ t) c = contains s c || contains t c.
Proof. unfold contains, in_chars. apply existsb_app. Qed.

Lemma contains_Forall_ne (s : pystr) (c : N) :
  contains s c = false ↔ Forall (λ d, d ≠ c) s.
Proof.
  rewrite contains_false. apply Forall_iff. intros d.
  unfold is_not. rewrite negb_true_iff. apply N.eqb_neq.
Qed.

Lemma before_first_absent (c : N) (s : pystr) :
  contains s c = false → before_first c s = s.
Proof. intros H. apply takewhile_all. by apply contains_false. Qed.

Lemma before_first_app (c : N) (s t : pystr) :
  contains s c = false → before_first c (s ++ c :: t) = s.
Proof.
  intros H. apply takewhile_app_stop; [by apply contains_false|].
  unfold is_not. by rewrite N.eqb_refl.
Qed.

Lemma before_first_free (c : N) (s : pystr) : contains (before_first c s) c = false.
Proof.
  unfold before_first. apply contains_false.
  induction s as [|d s IH]; simpl; [constructor|].
  destruct (is_not c d) eqn:Hd; [by constructor | constructor].
Qed.

Lemma rev_Forall (Q : N → Prop) (s : pystr) : Forall Q s → Forall Q (rev s).
Proof.
  rewrite !Forall_forall. intros H c Hc. apply H.
  apply list_elem_of_In in Hc. apply in_rev in Hc. by apply list_elem_of_In.
Qed.

Lemma after_last_Forall (Q : N → Prop) (c : N) (s : pystr) :
  Forall Q s → Forall Q (after_last c s).
Proof. intros H. unfold after_last. by apply rev_Forall, takewhile_Forall, rev_Forall. Qed.

(** The part after the last [c] is a suffix free of [c], and what
    precedes it is empty or ends with [c]. *)
Lemma after_last_spec (c : N) (s : pystr) :
  ∃ pre,
    s = pre ++ after_last c s
    ∧ contains (after_last c s) c = false
    ∧ (pre = [] ∨ last pre = Some c).
Proof.
  unfold after_last.
  exists (rev (dropwhile (is_not c) (rev s))). split; [|split].
  - rewrite <- rev_app_distr, takewhile_dropwhile. by rewrite rev_involutive.
  - apply contains_false, rev_Forall.
    generalize (rev s). intros l. induction l as [|d l IH]; simpl; [constructor|].
    destruct (is_not c d) eqn:Hd; [by constructor | constructor].
  - rewrite last_rev.
    destruct (dropwhile_head (is_not c) (rev s)) as [H | (d & H & Hd)].
    + left. by destruct (dropwhile (is_not c) (rev s)).
    + right. rewrite H. f_equal.
      unfold is_not in Hd. apply negb_false_iff, N.eqb_eq in Hd. done.
Qed.

Lemma startswith_app (s prefix : pystr) :
  startswith s prefix = true → s = prefix ++ drop (length prefix) s.
Proof.
  revert s. induction prefix as [|c prefix IH]; intros s H; [done|].
  destruct s as [|d s]; [done|]. simpl in H.
  apply andb_true_iff in H as [Hc H]. apply N.eqb_eq in Hc as ->.
  simpl. f_equal. by apply IH.
Qed.

(** ** [extension_from_content_type] *)

Lemma main_type_of_params (base params : pystr) :
  contains base (ch ";") = false →
  main_type_of (base ++ ch ";" :: params) = main_type_of base.
Proof.
  intros H. unfold main_type_of.
  by rewrite before_first_app, before_first_absent.
Qed.

Lemma image_subtype (main_type : pystr) :
  startswith main_type (py "image/") = true →
  after_first (ch "/") main_type = drop 6 main_type.
Proof.
  intros H. apply startswith_app in H.
  change (length (py "image/")) with 6%nat in H.
  rewrite H at 1. reflexivity.
Qed.

(** C5: [extension_from_content_type], for a type table without a row for
    the empty type.  A parameter segment [;params] after a media type
    [base] is cut off before the lookup: the type looked up is the same,
    and so is the extension returned, as for ["image/png; charset=binary"]
    and ["image/png"].  For a non-empty [base] the extension is the row of
    the table for the stripped, lowered type; without a row (or with an
    empty one) it is a dot and the subtype when the type begins with
    [image/], and empty otherwise.  The empty string gives the empty
    extension. *)
Theorem extension_from_content_type_spec (E : environment) (base params : pystr) :
  guess_extension E [] = None →
  contains base (ch ";") = false →
  main_type_of (base ++ ch ";" :: params) = main_type_of base
  ∧ extension_from_content_type E (base ++ ch ";" :: params)
    = extension_from_content_type E base
  ∧ extension_from_content_type E base
    = (if truthy base then
         match guess_extension E (main_type_of base) with
         | Some (c :: ext) => c :: ext
         | _ =>
             if startswith (main_type_of base) (py "image/")
             then ch "." :: drop 6 (main_type_of base)
             else []
         end
       else [])
  ∧ extension_from_content_type E [] = []
  ∧ main_type_of (py "image/png; charset=binary") = py "image/png"
  ∧ extension_from_content_type E (py "image/png; charset=binary")
    = extension_from_content_type E (py "image/png").
Proof.
  intros Hempty Hbase.
  assert (Closed : ∀ content_type,
    extension_from_content_type E content_type
    = (if truthy content_type then
         match guess_extension E (main_type_of content_type) with
         | Some (c :: ext) => c :: ext
         | _ =>
             if startswith (main_type_of content_type) (py "image/")
             then ch "." :: drop 6 (main_type_of content_type)
             else []
         end
       else [])).
  { intros content_type. unfold extension_from_content_type.
    destruct (truthy content_type); [|done]. cbn [negb]. cbv zeta.
    destruct (startswith (main_type_of content_type) (py "image/")) eqn:S.
    - rewrite (image_subtype _ S).
      by destruct (guess_extension E (main_type_of content_type)) as [[|c ext]|].
    - by destruct (guess_extension E (main_type_of content_type)) as [[|c ext]|]. }
  split; [by apply main_type_of_params|].
  split.
  { rewrite !Closed, main_type_of_params by done.
    destruct base as [|c base]; [|done].
    change (truthy ([] ++ ch ";" :: params)) with true.
    change (main_type_of []) with (@nil N). by rewrite Hempty. }
  split; [apply Closed|].
  split; [done|].
  split; [reflexivity|].
  rewrite !Closed. reflexivity.
Qed.

Lemma extension_from_content_type_spec_png :
  let E := sample_env (Raise Timeout) (Raise Timeout) in
  guess_extension E [] = None
  ∧ contains (py "image/png") (ch ";") = false
  ∧ extension_from_content_type E (py "image/png" ++ ch ";" :: py " charset=binary")
    = extension_from_content_type E (py "image/png")
  ∧ extension_from_content_type E (py "image/png") = py ".png".
Proof.
  intros E.
  split; [reflexivity|]. split; [reflexivity|].
  split; [|reflexivity].
  apply (extension_from_content_type_spec E (py "image/png") (py " charset=binary"));
    reflexivity.
Defined.

(** ** [filename_from_url] *)

Lemma filter_Forall (Q : N → Prop) (f : N → bool) (s : pystr) :
  Forall Q s → Forall Q (List.filter f s).
Proof.
  induction 1 as [|c t Hc _ IH]; simpl; [constructor|].
  destruct (f c); [by constructor | done].
Qed.

Lemma contains_split (s : pystr) (c : N) :
  contains s c = true → s = before_first c s ++ c :: after_first c s.
Proof.
  intros H. unfold before_first, after_first.
  rewrite <- (takewhile_dropwhile (is_not c) s) at 1. f_equal.
  destruct (dropwhile_head (is_not c) s) as [E | (d & E & Hd)].
  - exfalso. destruct (dropwhile (is_not c) s) eqn:D; [|discriminate].
    pose proof (takewhile_dropwhile (is_not c) s) as T. rewrite D, app_nil_r in T.
    assert (F : contains s c = false).
    { rewrite <- T. apply before_first_free. }
    congruence.
  - destruct (dropwhile (is_not c) s) as [|d' t]; [discriminate|].
    injection E as ->. unfold is_not in Hd.
    apply negb_false_iff, N.eqb_eq in Hd as ->. reflexivity.
Qed.

Lemma after_first_app (c : N) (s t : pystr) :
  contains s c = false → after_first c (s ++ c :: t) = t.
Proof.
  intros H. unfold after_first. rewrite dropwhile_app_stop.
  - pose proof (takewhile_dropwhile (is_not c) s) as T.
    rewrite (takewhile_all _ s) in T by (by apply contains_false).
    assert (D : dropwhile (is_not c) s = []).
    { apply (app_inv_head s). by rewrite app_nil_r. }
    by rewrite D.
  - unfold is_not. by rewrite N.eqb_refl.
Qed.

Lemma takewhile_app_all (p : N → bool) (s t : pystr) :
  Forall (λ c, p c = true) s → takewhile p (s ++ t) = s ++ takewhile p t.
Proof. induction 1 as [|c s Hc _ IH]; simpl; [done|]. by rewrite Hc, IH. Qed.

(** The query does not change what the scheme is. *)
Lemma split_scheme_query (u q : pystr) :
  contains u (ch "?") = false →
  split_scheme (u ++ ch "?" :: q)
  = ((split_scheme u).1, (split_scheme u).2 ++ ch "?" :: q).
Proof.
  intros Hu. unfold split_scheme.
  destruct (contains u (ch ":")) eqn:C.
  - pose proof (contains_split u (ch ":") C) as S.
    set (a := before_first (ch ":") u) in *. set (b := after_first (ch ":") u) in *.
    assert (Ha : contains a (ch ":") = false) by apply before_first_free.
    assert (E1 : before_first (ch ":") (u ++ ch "?" :: q) = a).
    { rewrite S, <- app_assoc. cbn [app]. by apply before_first_app. }
    assert (E2 : after_first (ch ":") (u ++ ch "?" :: q) = b ++ ch "?" :: q).
    { rewrite S at 1. rewrite <- app_assoc. cbn [app]. by apply after_first_app. }
    assert (E3 : hd 0 (u ++ ch "?" :: q) = hd 0 u).
    { destruct u; [discriminate | done]. }
    rewrite contains_app, C, E1, E2, E3. cbn [orb andb].
    by destruct (truthy a && is_ascii_alpha (hd 0 u) && forallb is_scheme_char a).
  - cbn [andb fst snd].
    destruct (contains (u ++ ch "?" :: q) (ch ":")); [|done]. cbn [andb].
    assert (F : forallb is_scheme_char (before_first (ch ":") (u ++ ch "?" :: q)) = false).
    { unfold before_first. rewrite takewhile_app_all by (by apply contains_false).
      rewrite forallb_app. apply andb_false_iff. right. reflexivity. }
    rewrite F. by rewrite !andb_false_r.
Qed.

Lemma split_scheme_Forall (Q : N → Prop) (u : pystr) :
  Forall Q u → Forall Q (split_scheme u).2.
Proof.
  intros H. unfold split_scheme.
  destruct (_ && _); [|done]. cbn [snd]. unfold after_first.
  destruct (dropwhile_suffix (is_not (ch ":")) u) as (pre & E & _).
  rewrite E in H. apply Forall_app in H as [_ H].
  destruct (dropwhile (is_not (ch ":")) u); [done|]. by apply Forall_cons in H as [_ H].
Qed.

(** The query does not change what the network location is. *)
Lemma splitnetloc_query (r q : pystr) :
  contains r (ch "?") = false →
  (if startswith (r ++ ch "?" :: q) (py "//")
   then splitnetloc (r ++ ch "?" :: q) else ([], r ++ ch "?" :: q))
  = let nr := if startswith r (py "//") then splitnetloc r else ([], r) in
    (nr.1, nr.2 ++ ch "?" :: q).
Proof.
  intros Hr. destruct r as [|c [|d r]].
  - reflexivity.
  - simpl. by rewrite andb_false_r.
  - change (startswith ((c :: d :: r) ++ ch "?" :: q) (py "//"))
      with (startswith (c :: d :: r) (py "//")).
    destruct (startswith (c :: d :: r) (py "//")); [|done].
    unfold splitnetloc.
    change (drop 2 ((c :: d :: r) ++ ch "?" :: q)) with (r ++ ch "?" :: q).
    change (drop 2 (c :: d :: r)) with r. cbn [fst snd].
    rewrite takewhile_app_cut, dropwhile_app_stop by reflexivity. reflexivity.
Qed.

Lemma splitnetloc_Forall (Q : N → Prop) (r : pystr) :
  Forall Q r →
  Forall Q (if startswith r (py "//") then splitnetloc r else ([], r)).2.
Proof.
  intros H. destruct (startswith r (py "//")); [|done].
  unfold splitnetloc. cbn [snd]. by apply dropwhile_Forall, Forall_drop.
Qed.

(** [urlsplit] gives the same scheme, location and path with and without
    a query. *)
Lemma urlsplit_query (E : environment) (u q : pystr) :
  contains u (ch "?") = false →
  contains u (ch "#") = false →
  contains q (ch "#") = false →
  urlsplit E (u ++ ch "?" :: q) = urlsplit E u.
Proof.
  intros Hq Hh Hqh. unfold urlsplit, str_lstrip_by.
  rewrite dropwhile_app_stop by reflexivity.
  rewrite List.filter_app. cbn [List.filter]. change (negb (is_unsafe_url_char (ch "?"))) with true.
  cbv iota.
  set (f := λ c, negb (is_unsafe_url_char c)).
  set (u1 := List.filter f (dropwhile is_c0_or_space u)).
  set (q1 := List.filter f q).
  assert (Hu1 : ∀ c, contains u c = false → contains u1 c = false).
  { intros c Hc. apply contains_Forall_ne. apply contains_Forall_ne in Hc.
    by apply filter_Forall, dropwhile_Forall. }
  assert (Hq1 : contains q1 (ch "#") = false).
  { apply contains_Forall_ne. apply contains_Forall_ne in Hqh. by apply filter_Forall. }
  rewrite split_scheme_query by (by apply Hu1).
  assert (Hr : ∀ c, contains u c = false → contains (split_scheme u1).2 c = false).
  { intros c Hc. apply contains_Forall_ne, split_scheme_Forall, contains_Forall_ne.
    by apply Hu1. }
  destruct (split_scheme u1) as [scheme r]. cbn [fst snd] in *.
  rewrite splitnetloc_query by (by apply Hr).
  assert (Hrest : ∀ c, contains u c = false →
            contains (if startswith r (py "//") then splitnetloc r else ([], r)).2 c = false).
  { intros c Hc. apply contains_Forall_ne, splitnetloc_Forall, contains_Forall_ne.
    by apply Hr. }
  destruct (if startswith r (py "//") then splitnetloc r else ([], r)) as [netloc rest].
  cbn [fst snd] in *. cbv zeta.
  assert (A1 : contains (rest ++ ch "?" :: q1) (ch "#") = false).
  { rewrite contains_app, (Hrest _ Hh).
    change (contains (ch "?" :: q1) (ch "#")) with (contains q1 (ch "#")).
    by rewrite Hq1. }
  assert (A2 : contains (rest ++ ch "?" :: q1) (ch "?") = true).
  { rewrite contains_app. apply orb_true_r. }
  rewrite A1, A2, (Hrest _ Hh), (Hrest _ Hq), before_first_app by (by apply Hrest).
  reflexivity.
Qed.

(** The path [urlsplit] returns holds neither a query nor a fragment. *)
Lemma urlsplit_path_free (E : environment) (url scheme netloc path : pystr) :
  urlsplit E url = Ok (scheme, netloc, path) →
  contains path (ch "?") = false ∧ contains path (ch "#") = false.
Proof.
  unfold urlsplit.
  destruct (split_scheme _) as [scheme' r].
  destruct (if startswith r (py "//") then splitnetloc r else ([], r)) as [netloc' rest].
  cbv zeta.
  destruct (_ || _); [discriminate|].
  destruct (_ && negb _); [discriminate|].
  destruct (checknetloc E netloc'); [|discriminate].
  intros H.
  apply (f_equal (λ r, match r with Ok (_, _, p) => p | Raise _ => [] end)) in H.
  cbv beta iota in H. subst path.
  set (x := if contains rest (ch "#") then before_first (ch "#") rest else rest).
  assert (Hx : contains x (ch "#") = false).
  { unfold x. destruct (contains rest (ch "#")) eqn:C; [apply before_first_free | done]. }
  destruct (contains x (ch "?")) eqn:C; [|done].
  split; [apply before_first_free|].
  apply contains_Forall_ne, takewhile_Forall. by apply contains_Forall_ne.
Qed.

Lemma splitparams_Forall (Q : N → Prop) (url : pystr) :
  Forall Q url → Forall Q (splitparams url).
Proof.
  intros H. unfold splitparams. destruct (contains url (ch "/")).
  - apply Forall_app. split; [by apply Forall_take|].
    by apply takewhile_Forall, after_last_Forall.
  - by apply takewhile_Forall.
Qed.

Lemma urlparse_path_free (E : environment) (url path : pystr) :
  urlparse_path E url = Ok path →
  contains path (ch "?") = false ∧ contains path (ch "#") = false.
Proof.
  unfold urlparse_path.
  destruct (urlsplit E url) as [[[scheme netloc] path']|e] eqn:U; [|discriminate].
  apply urlsplit_path_free in U as [Hq Hh].
  destruct (_ && _); intros [= <-]; [|done].
  split; apply contains_Forall_ne, splitparams_Forall; by apply contains_Forall_ne.
Qed.

Lemma filename_from_url_query (E : environment) (u q : pystr) :
  contains u (ch "?") = false →
  contains u (ch "#") = false →
  contains q (ch "#") = false →
  filename_from_url E (u ++ ch "?" :: q) = filename_from_url E u.
Proof.
  intros Hq Hh Hqh. unfold filename_from_url, urlparse_path.
  by rewrite urlsplit_query.
Qed.

(** The final segment of ["/a%20b.png"] is ["a%20b.png"], and yet
    [filename_from_url] returns another string, ["a_20b.png"]; and for a
    URL with an unclosed bracket in its network location it returns
    nothing at all: [urlparse] raises. *)
Lemma filename_from_url_not_the_segment :
  urlparse_path (sample_env (Raise Timeout) (Raise Timeout))
    (py "https://example.com/a%20b.png") = Ok (py "/a%20b.png")
  ∧ basename (py "/a%20b.png") = py "a%20b.png"
  ∧ filename_from_url (sample_env (Raise Timeout) (Raise Timeout))
      (py "https://example.com/a%20b.png") = Ok (Some (py "a_20b.png"))
  ∧ filename_from_url (sample_env (Raise Timeout) (Raise Timeout))
      (py "https://example.com/a%20b.png") ≠ Ok (Some (py "a%20b.png"))
  ∧ filename_from_url (sample_env (Raise Timeout) (Raise Timeout))
      (py "http://[/pic.png") = Raise ValueError.
Proof. repeat split; try reflexivity. vm_compute. discriminate. Qed.

(** C7, amended: for every URL that [urlparse] accepts (it raises on some
    bracketed or non-ASCII network locations, and then so does
    [filename_from_url]), [filename_from_url] takes the path of the URL,
    which holds neither the query nor the fragment, and in it the final
    segment, the part after the last [/].  It returns nothing when this
    segment is empty and otherwise the segment sanitized, which is the
    segment itself when sanitizing does not change it.  Adding a query to
    a URL does not change the result.  So
    ["https://example.com/path/pic.png?x=1"] gives ["pic.png"],
    ["https://example.com/"] gives nothing, and
    ["https://example.com/a%20b.png"] gives ["a_20b.png"]. *)
Theorem filename_from_url_spec (E : environment) (url : pystr) :
  match urlparse_path E url with
  | Raise e => filename_from_url E url = Raise e
  | Ok path =>
      contains path (ch "?") = false
      ∧ contains path (ch "#") = false
      ∧ (∃ dir,
           path = dir ++ basename path
           ∧ contains (basename path) (ch "/") = false
           ∧ (dir = [] ∨ last dir = Some (ch "/")))
      ∧ filename_from_url E url
        = (if truthy (basename path)
           then Ok (Some (sanitize_filename (basename path))) else Ok None)
      ∧ (if bool_decide (sanitize_filename (basename path) = basename path)
         then filename_from_url E url = Ok (Some (basename path)) else True)
  end
  ∧ (∀ u q : pystr,
       contains u (ch "?") = false →
       contains u (ch "#") = false →
       contains q (ch "#") = false →
       filename_from_url E (u ++ ch "?" :: q) = filename_from_url E u)
  ∧ filename_from_url E (py "https://example.com/path/pic.png?x=1") = Ok (Some (py "pic.png"))
  ∧ filename_from_url E (py "https://example.com/") = Ok None
  ∧ filename_from_url E (py "https://example.com/a%20b.png") = Ok (Some (py "a_20b.png")).
Proof.
  split.
  { unfold filename_from_url.
    destruct (urlparse_path E url) as [path|e] eqn:U; [|done].
    destruct (urlparse_path_free E url path U) as [Hq Hh].
    repeat split; try done.
    - apply after_last_spec.
    - case_bool_decide as S; [|done].
      destruct (truthy (basename path)) eqn:T; [by rewrite S|].
      exfalso. apply (sanitize_filename_nonempty (basename path)).
      rewrite S. by destruct (basename path). }
  split; [apply filename_from_url_query|].
  repeat split; reflexivity.
Qed.

(** * Further properties of the code *)

(** ** The download and its handlers *)

(** The download step of [main], read off what [download_image] did. *)
Lemma main_download_run (E : environment) (url output_path : pystr) (w : world) :
  main_download E url output_path w
  = (Ok tt,
     {| files := files (download_image E url output_path w).2;
        stdout := stdout (download_image E url output_path w).2
                  ++ [match (download_image E url output_path w).1 with
                      | Ok _ => MsgDownloaded output_path
                      | Raise e => report e
                      end];
        written := written (download_image E url output_path w).2 |}).
Proof.
  unfold main_download, try_except. unfold bind at 1.
  destruct (download_image E url output_path w) as [[[]|e] w1]; [done|].
  by destruct e.
Qed.

(** X1: the download step of [main] never raises.  Whatever
    [download_image] does, the [except] clauses return normally, leave the
    files and the written chunks as the download left them, and print
    exactly one more line: the success line, or the line of the first
    clause that matches.  So an [HTTPError], which is also a
    [RequestException] and an [OSError], is reported as an HTTP error, and
    a time-out as a time-out. *)
Theorem main_download_never_raises (E : environment) (url output_path : pystr) (w : world) :
  (main_download E url output_path w).1 = Ok tt
  ∧ files (main_download E url output_path w).2
    = files (download_image E url output_path w).2
  ∧ written (main_download E url output_path w).2
    = written (download_image E url output_path w).2
  ∧ stdout (main_download E url output_path w).2
    = stdout (download_image E url output_path w).2
      ++ [match (download_image E url output_path w).1 with
          | Ok _ => MsgDownloaded output_path
          | Raise (HTTPError status) => MsgHttpError (HTTPError status)
          | Raise Timeout => MsgTimeout
          | Raise ConnectionError => MsgConnectionError
          | Raise OtherRequestException => MsgNetworkError OtherRequestException
          | Raise OSError => MsgFileError OSError
          | Raise e => MsgUnexpected e
          end].
Proof.
  rewrite main_download_run. cbn [fst snd files stdout written].
  repeat split.
  destruct (download_image E url output_path w) as [[[]|e] w1]; [done|].
  by destruct e.
Qed.

(** X2: when the GET request itself raises (time-out, refused connection,
    any other fault of the network), nothing is created, written or
    printed by [download_image], and [main] prints the line of that
    exception and nothing else. *)
Theorem download_request_failure (E : environment) (url output_path : pystr)
    (w : world) (e : exn) :
  requests_get E url = Raise e →
  download_image E url output_path w = (Raise e, w)
  ∧ main_download E url output_path w
    = (Ok tt, {| files := files w; stdout := stdout w ++ [report e]; written := written w |}).
Proof.
  intros G.
  assert (D : download_image E url output_path w = (Raise e, w)).
  { by rewrite download_image_run, G. }
  split; [done|]. by rewrite main_download_run, D.
Qed.

Lemma download_request_failure_timeout :
  main_download (sample_env (Raise Timeout) (Raise Timeout))
    (py "https://x/img") (py "Fetched_Images/img") fresh_world
  = (Ok tt,
     {| files := files fresh_world;
        stdout := stdout fresh_world ++ [report Timeout];
        written := written fresh_world |}).
Proof.
  apply (download_request_failure (sample_env (Raise Timeout) (Raise Timeout))
           (py "https://x/img") (py "Fetched_Images/img") fresh_world Timeout).
  reflexivity.
Defined.

(** X3: a connection that breaks in the middle of the body leaves a
    partial file.  When the status is no error, [open] accepts the path
    (it is no directory and the operating system does not refuse it), the
    device takes the chunks that arrive, and the iterator raises after
    them, [download_image] raises that exception, and the file holds the
    chunks received before it. *)
Theorem download_broken_stream (E : environment) (url output_path : pystr)
    (w : world) (resp : response) (e : exn) :
  requests_get E url = Ok resp →
  (400 <=? status_code resp) && (status_code resp <? 600) = false →
  save_accepted E (files w) output_path (body_chunks resp) = true →
  body_error resp = Some e →
  (download_image E url output_path w).1 = Raise e
  ∧ files (download_image E url output_path w).2 !! output_path
    = Some (File (concat (body_chunks resp)))
  ∧ stdout (main_download E url output_path w).2
    = stdout (download_image E url output_path w).2 ++ [report e].
Proof.
  intros G S D B.
  assert (R : (download_image E url output_path w).1 = Raise e
              ∧ files (download_image E url output_path w).2 !! output_path
                = Some (File (concat (body_chunks resp)))).
  { rewrite (download_image_accepted E url output_path w resp G S D), B.
    cbn [fst snd files]. split; [done | apply lookup_insert_eq]. }
  destruct R as [R1 R2]. repeat split; try done.
  rewrite main_download_run. cbn [snd stdout]. by rewrite R1.
Qed.

Lemma download_broken_stream_partial :
  let resp := {| status_code := 200; content_type_header := Some (py "image/png");
                 body_chunks := [[Byte.x89; Byte.x50]; []; [Byte.x4e]];
                 body_error := Some ConnectionError |} in
  let E := sample_env (Ok resp) (Raise Timeout) in
  (download_image E (py "https://x/img") (py "Fetched_Images/img") fresh_world).1
  = Raise ConnectionError
  ∧ files (download_image E (py "https://x/img") (py "Fetched_Images/img") fresh_world).2
      !! py "Fetched_Images/img"
    = Some (File [Byte.x89; Byte.x50; Byte.x4e]).
Proof.
  intros resp E.
  pose proof (download_broken_stream E (py "https://x/img") (py "Fetched_Images/img")
                fresh_world resp ConnectionError) as H.
  split; apply H; try reflexivity; by vm_compute.
Defined.

(** X4: the declared media type is advisory.  Two answers that differ in
    their [Content-Type] header only give the same result, the same files
    and the same written chunks; the header decides about the warning and
    about nothing else. *)
Theorem download_content_type_advisory (E : environment) (url output_path : pystr)
    (w : world) (resp : response) (content_type : option pystr) :
  let d := download_image (with_get E (Ok resp)) url output_path w in
  let d' := download_image (with_get E (Ok (retyped resp content_type))) url output_path w in
  d'.1 = d.1 ∧ files d'.2 = files d.2 ∧ written d'.2 = written d.2
  ∧ (stdout d.2 = stdout w ∨ stdout d.2 = stdout w ++ [MsgWarning (get_content_type resp)]).
Proof.
  cbn zeta. rewrite !download_image_run. cbn [requests_get with_get].
  change (status_code (retyped resp content_type)) with (status_code resp).
  change (body_chunks (retyped resp content_type)) with (body_chunks resp).
  change (body_error (retyped resp content_type)) with (body_error resp).
  destruct ((400 <=? status_code resp) && (status_code resp <? 600)); [by auto|].
  cbn zeta.
  change (open_fails (with_get E (Ok (retyped resp content_type))) (files w) output_path)
    with (open_fails E (files w) output_path).
  change (open_fails (with_get E (Ok resp)) (files w) output_path)
    with (open_fails E (files w) output_path).
  destruct (open_fails E (files w) output_path).
  - cbn [fst snd files stdout written]. repeat split; try done.
    destruct (negb (startswith (str_lower (get_content_type resp)) (py "image/"))); auto.
  - assert (W : ∀ get, write_all (with_get E get) output_path (body_chunks resp)
                         (<[output_path := File []]> (files w)) (written w)
                       = write_all E output_path (body_chunks resp)
                           (<[output_path := File []]> (files w)) (written w)).
    { intros get. apply write_all_with_get. }
    rewrite !W.
    destruct (write_all E output_path (body_chunks resp) _ (written w)) as [[r fs] calls].
    cbn [fst snd files stdout written]. repeat split; try done.
    destruct (negb (startswith (str_lower (get_content_type resp)) (py "image/"))); auto.
Qed.

(** ** The loop of [unique_filepath], for any fuel *)

Lemma unique_loop_sound (fs : gmap pystr node) (directory filename : pystr)
    (fuel k : nat) (p : pystr) :
  unique_loop fuel fs directory (splitext filename).1 (splitext filename).2
    (candidate filename k) (N.of_nat (S k)) = Some p →
  path_exists fs p = false ∧ ∃ j, p = path_join directory (candidate filename j).
Proof.
  revert k. induction fuel as [|fuel IH]; intros k; [discriminate|].
  rewrite unique_loop_S.
  destruct (path_exists fs (path_join directory (candidate filename k))) eqn:X.
  - rewrite <- candidate_succ.
    replace (N.of_nat (S k) + 1) with (N.of_nat (S (S k))) by lia. apply IH.
  - intros [= <-]. split; [done | by exists k].
Qed.

Lemma unique_filepath_sound (fs : gmap pystr node) (directory filename : pystr)
    (fuel : nat) (p : pystr) :
  unique_filepath fuel fs directory filename = Some p →
  path_exists fs p = false ∧ ∃ j, p = path_join directory (candidate filename j).
Proof.
  unfold unique_filepath. intros H.
  apply (unique_loop_sound fs directory filename fuel 0).
  by destruct (splitext filename).
Qed.

Lemma path_exists_false (fs : gmap pystr node) (p : pystr) :
  path_exists fs p = false ↔ fs !! p = None.
Proof.
  unfold path_exists. rewrite bool_decide_eq_false, <- eq_None_not_Some. done.
Qed.

(** ** [main] as a whole *)

Lemma makedirs_run (path : pystr) (w : world) :
  match files w !! path with
  | Some (File _) => makedirs path w = (Raise OSError, w)
  | Some Dir => makedirs path w = (Ok tt, w)
  | None =>
      makedirs path w
      = (Ok tt, {| files := <[path := Dir]> (files w);
                   stdout := stdout w; written := written w |})
  end.
Proof. unfold makedirs. by destruct (files w !! path) as [[?|]|]. Qed.

(** What [main] does, step by step. *)
Lemma main_run (fuel : nat) (E : environment) (url confirm : pystr) (w : world) :
  main fuel E url confirm w
  = let w1 := {| files := files w; stdout := stdout w ++ [MsgBanner]; written := written w |} in
    if negb (truthy url)
    then Some (Ok tt, {| files := files w; stdout := stdout w1 ++ [MsgNoUrl];
                         written := written w |})
    else
      match makedirs FETCH_DIR w1, filename_from_url E url with
      | (Raise e, w2), _ | (Ok _, w2), Raise e => Some (Raise e, w2)
      | (Ok _, w2), Ok name =>
          match unique_filepath fuel (files w2) FETCH_DIR
                  (sanitize_filename (composed_filename E name (chosen_ext_of E url))) with
          | None => None
          | Some output_path =>
              let w3 := {| files := files w2; stdout := stdout w2 ++ [MsgSavingTo output_path];
                           written := written w2 |} in
              if bool_decide (confirm = py "n")
              then Some (Ok tt, {| files := files w2; stdout := stdout w3 ++ [MsgCancelled];
                                   written := written w2 |})
              else Some (main_download E url output_path w3)
          end
      end.
Proof.
  unfold main. cbn zeta. unfold print at 1.
  destruct (negb (truthy url)); [done|].
  set (w1 := {| files := files w; stdout := stdout w ++ [MsgBanner]; written := written w |}).
  change ((makedirs FETCH_DIR ;; main_filename E url) w1)
    with (match makedirs FETCH_DIR w1 with
          | (Ok _, w') => main_filename E url w'
          | (Raise e, w') => (Raise e, w')
          end).
  destruct (makedirs FETCH_DIR w1) as [[[]|e'] w2]; [|done].
  rewrite main_filename_run.
  destruct (filename_from_url E url) as [name|e]; [|done].
  destruct (unique_filepath fuel (files w2) FETCH_DIR _) as [output_path|]; [|done].
  unfold bind at 1, print at 1.
  by case_bool_decide.
Qed.

Lemma makedirs_keeps (path : pystr) (w : world) :
  files w ⊆ files (makedirs path w).2
  ∧ stdout (makedirs path w).2 = stdout w
  ∧ written (makedirs path w).2 = written w
  ∧ (files (makedirs path w).2 = files w
     ∨ files (makedirs path w).2 = <[path := Dir]> (files w)).
Proof.
  unfold makedirs.
  destruct (files w !! path) as [[?|]|] eqn:L; cbn [snd files stdout written];
    repeat split; try done; auto.
  by apply insert_subseteq.
Qed.

Lemma download_image_keeps (E : environment) (url output_path : pystr) (w : world) :
  files w !! output_path = None →
  files w ⊆ files (download_image E url output_path w).2.
Proof.
  intros L. rewrite download_image_run.
  destruct (requests_get E url) as [resp|e]; [|done].
  destruct (_ && _); [done|]. cbn zeta.
  destruct (open_fails E (files w) output_path); [done|].
  destruct (write_all_frame E output_path (body_chunks resp)
              (<[output_path := File []]> (files w)) (written w) [])
    as [content' F]; [apply lookup_insert_eq|].
  destruct (write_all E output_path (body_chunks resp) _ (written w)) as [[r fs] calls].
  cbn [fst snd files] in F |- *. rewrite F, insert_insert_eq.
  by apply insert_subseteq.
Qed.

(** X5: [main] never changes or removes what is already on disk.  Every
    entry of the file system before the run is there, unchanged, after it:
    the directory is only created when absent, and the download goes to a
    path that did not exist when [unique_filepath] looked. *)
Theorem main_keeps_existing_entries (fuel : nat) (E : environment)
    (url confirm : pystr) (w : world) (r : result unit) (w' : world) :
  main fuel E url confirm w = Some (r, w') →
  files w ⊆ files w'.
Proof.
  rewrite main_run. cbn zeta.
  destruct (negb (truthy url)); [by intros [= _ <-]|].
  set (w1 := {| files := files w; stdout := stdout w ++ [MsgBanner]; written := written w |}).
  destruct (makedirs_keeps FETCH_DIR w1) as (K & _ & _ & _).
  destruct (makedirs FETCH_DIR w1) as [[[]|e'] w2]; cbn [snd] in K;
    [|by intros [= _ <-]].
  destruct (filename_from_url E url) as [name|e]; [|by intros [= _ <-]].
  destruct (unique_filepath fuel (files w2) FETCH_DIR _) as [output_path|] eqn:U; [|done].
  apply unique_filepath_sound in U as [U _]. apply path_exists_false in U.
  case_bool_decide; [by intros [= _ <-]|].
  rewrite main_download_run. intros [= _ <-]. cbn [files].
  etrans; [exact K|].
  exact (download_image_keeps E url output_path
           {| files := files w2; stdout := stdout w2 ++ [MsgSavingTo output_path];
              written := written w2 |} U).
Qed.

Lemma main_keeps_existing_entries_run :
  let resp := {| status_code := 200; content_type_header := Some (py "image/jpeg");
                 body_chunks := [[Byte.xff; Byte.xd8]]; body_error := None |} in
  let E := sample_env (Ok resp) (Ok (bodyless 200 (Some (py "image/jpeg")))) in
  let w := {| files := <[ py "Fetched_Images/img.jpg" := File [Byte.x00] ]>
                         {[ FETCH_DIR := Dir ]};
              stdout := []; written := [] |} in
  files w ⊆ files (default (Ok tt, w) (main 3 E (py "https://x/img") [] w)).2
  ∧ files (default (Ok tt, w) (main 3 E (py "https://x/img") [] w)).2
      !! py "Fetched_Images/img_1.jpg" = Some (File [Byte.xff; Byte.xd8]).
Proof.
  intros resp E w. split; [|by vm_compute].
  apply (main_keeps_existing_entries 3 E (py "https://x/img") [] w
           (default (Ok tt, w) (main 3 E (py "https://x/img") [] w)).1).
  by vm_compute.
Defined.

(** X6: two exceptions that no clause of [main] handles.  For a URL that
    is not empty: when [Fetched_Images] exists as a regular file,
    [os.makedirs] raises an [OSError]; when [Fetched_Images] is a
    directory and [urlparse] rejects the URL, [filename_from_url] raises.
    Both calls stand outside the inner [try] blocks, so the exception
    leaves [main], which has printed the banner only and has touched no
    file. *)
Theorem main_uncaught_exceptions (fuel : nat) (E : environment)
    (url confirm : pystr) (w : world) (e : exn) :
  truthy url = true →
  ((∃ content, files w !! FETCH_DIR = Some (File content)) ∧ e = OSError)
  ∨ (files w !! FETCH_DIR = Some Dir ∧ filename_from_url E url = Raise e) →
  main fuel E url confirm w
  = Some (Raise e,
          {| files := files w; stdout := stdout w ++ [MsgBanner]; written := written w |}).
Proof.
  intros U H. rewrite main_run. cbn zeta. rewrite U. cbn [negb].
  set (w1 := {| files := files w; stdout := stdout w ++ [MsgBanner]; written := written w |}).
  pose proof (makedirs_run FETCH_DIR w1) as Mk. cbn [files w1] in Mk.
  destruct H as [[[content L] ->] | [L F]]; rewrite L in Mk; rewrite Mk; [done|].
  by rewrite F.
Qed.

Lemma main_uncaught_exceptions_bracket :
  main 1 (sample_env (Raise Timeout) (Raise Timeout)) (py "http://[/pic.png") [] fresh_world
  = Some (Raise ValueError,
          {| files := files fresh_world; stdout := stdout fresh_world ++ [MsgBanner];
             written := written fresh_world |}).
Proof.
  apply (main_uncaught_exceptions 1 (sample_env (Raise Timeout) (Raise Timeout))
           (py "http://[/pic.png") [] fresh_world ValueError).
  - reflexivity.
  - right. split; reflexivity.
Defined.

(** X7: when the user answers [n], nothing is downloaded: no chunk is
    written, and the file system is as before, or as before with the new
    directory [Fetched_Images]. *)
Theorem main_declined (fuel : nat) (E : environment) (url : pystr)
    (w : world) (r : result unit) (w' : world) :
  main fuel E url (py "n") w = Some (r, w') →
  written w' = written w
  ∧ (files w' = files w ∨ files w' = <[FETCH_DIR := Dir]> (files w)).
Proof.
  rewrite main_run. cbn zeta.
  destruct (negb (truthy url)); [intros [= _ <-]; auto|].
  set (w1 := {| files := files w; stdout := stdout w ++ [MsgBanner]; written := written w |}).
  destruct (makedirs_keeps FETCH_DIR w1) as (_ & _ & Kw & Kf).
  destruct (makedirs FETCH_DIR w1) as [[[]|e'] w2]; cbn [snd files written w1] in Kw, Kf;
    [|by intros [= _ <-]].
  destruct (filename_from_url E url) as [name|e]; [|by intros [= _ <-]].
  destruct (unique_filepath fuel (files w2) FETCH_DIR _) as [output_path|]; [|done].
  rewrite bool_decide_eq_true_2 by done. by intros [= _ <-].
Qed.

Lemma main_declined_run :
  let E := sample_env (Ok (bodyless 200 (Some (py "image/jpeg")))) (Raise Timeout) in
  let w := {| files := ∅; stdout := []; written := [] |} in
  written (default (Ok tt, w) (main 1 E (py "https://x/img.jpg") (py "n") w)).2 = written w
  ∧ (files (default (Ok tt, w) (main 1 E (py "https://x/img.jpg") (py "n") w)).2 = files w
     ∨ files (default (Ok tt, w) (main 1 E (py "https://x/img.jpg") (py "n") w)).2
       = <[FETCH_DIR := Dir]> (files w)).
Proof.
  intros E w.
  apply (main_declined 1 E (py "https://x/img.jpg") w
           (default (Ok tt, w) (main 1 E (py "https://x/img.jpg") (py "n") w)).1).
  by vm_compute.
Defined.

Lemma report_not_downloaded (e : exn) (p : pystr) : report e ≠ MsgDownloaded p.
Proof. by destruct e. Qed.

(** X8: when [main] ends with the success line for a path, the file at
    this path holds exactly the body that the GET request returned, chunk
    after chunk; the path was free before the run; the chunks written are
    the non-empty chunks of the body; and [main] returned normally. *)
Theorem main_success_saves_body (fuel : nat) (E : environment)
    (url confirm : pystr) (w : world) (r : result unit) (w' : world) (p : pystr) :
  main fuel E url confirm w = Some (r, w') →
  last (stdout w') = Some (MsgDownloaded p) →
  r = Ok tt
  ∧ files w !! p = None
  ∧ ∃ resp,
      requests_get E url = Ok resp
      ∧ body_error resp = None
      ∧ files w' !! p = Some (File (concat (body_chunks resp)))
      ∧ written w' = written w ++ List.filter chunk_truthy (body_chunks resp).
Proof.
  rewrite main_run. cbn zeta.
  destruct (negb (truthy url)).
  { intros [= _ <-]. cbn [stdout]. by rewrite last_snoc. }
  set (w1 := {| files := files w; stdout := stdout w ++ [MsgBanner]; written := written w |}).
  destruct (makedirs_keeps FETCH_DIR w1) as (Ks & Ko & Kw & _).
  destruct (makedirs FETCH_DIR w1) as [[[]|e'] w2]; cbn [snd files stdout written w1] in *.
  2:{ intros [= _ <-]. by rewrite Ko, last_snoc. }
  destruct (filename_from_url E url) as [name|e].
  2:{ intros [= _ <-]. by rewrite Ko, last_snoc. }
  destruct (unique_filepath fuel (files w2) FETCH_DIR _) as [output_path|] eqn:U; [|done].
  apply unique_filepath_sound in U as [U _]. apply path_exists_false in U.
  case_bool_decide.
  { intros [= _ <-]. cbn [stdout]. by rewrite last_snoc. }
  rewrite main_download_run.
  set (w3 := {| files := files w2; stdout := stdout w2 ++ [MsgSavingTo output_path];
                written := written w2 |}).
  intros [= <- <-]. cbn [stdout]. rewrite last_snoc.
  destruct (download_image E url output_path w3).1 as [[]|e] eqn:D.
  2:{ intros [= Hm]. by apply report_not_downloaded in Hm. }
  intros [= <-]. split; [done|]. split.
  { eapply lookup_weaken_None; [exact U | exact Ks]. }
  destruct (requests_get E url) as [resp|e] eqn:G.
  2:{ rewrite download_image_run, G in D. discriminate D. }
  destruct (download_image_ok_accepted E url output_path w3 resp G D) as (S & A & B).
  exists resp. rewrite (download_image_accepted E url output_path w3 resp G S A).
  cbn [snd files written w3].
  repeat split; try done; [apply lookup_insert_eq | by rewrite Kw].
Qed.

Lemma main_success_saves_body_run :
  let resp := {| status_code := 200; content_type_header := Some (py "image/jpeg");
                 body_chunks := [[Byte.xff; Byte.xd8]; []; [Byte.xff]]; body_error := None |} in
  let E := sample_env (Ok resp) (Ok (bodyless 200 (Some (py "image/jpeg")))) in
  files (default (Ok tt, fresh_world) (main 1 E (py "https://x/img") [] fresh_world)).2
    !! py "Fetched_Images/img.jpg" = Some (File [Byte.xff; Byte.xd8; Byte.xff])
  ∧ written (default (Ok tt, fresh_world) (main 1 E (py "https://x/img") [] fresh_world)).2
    = [[Byte.xff; Byte.xd8]; [Byte.xff]].
Proof.
  intros resp E.
  destruct (main_success_saves_body 1 E (py "https://x/img") [] fresh_world
              (default (Ok tt, fresh_world) (main 1 E (py "https://x/img") [] fresh_world)).1
              (default (Ok tt, fresh_world) (main 1 E (py "https://x/img") [] fresh_world)).2
              (py "Fetched_Images/img.jpg"))
    as (_ & _ & resp' & G & _ & F & W); [by vm_compute | by vm_compute |].
  injection G as <-. split; [exact F | exact W].
Defined.

(** ** The names of the resolver *)

(** X9: the fixed points of [sanitize_filename].  A name is returned
    unchanged exactly when it is not empty, holds only characters of
    [[A-Za-z0-9._-]] and neither begins nor ends with [.], [_] or [-];
    every other name is changed. *)
Theorem sanitize_filename_fixed_points (name : pystr) :
  sanitize_filename name = name
  ↔ matches_safe_name name = true
    ∧ from_option (in_chars (py "._-")) false (head name) = false
    ∧ from_option (in_chars (py "._-")) false (last name) = false.
Proof.
  split.
  - intros Fix. split; [rewrite <- Fix; apply sanitize_filename_matches|].
    revert Fix. unfold sanitize_filename.
    destruct (str_strip_spec (py "._-") (sub_unsafe name)) as (_ & _ & _ & _ & _ & Hh & Hl).
    destruct (truthy (str_strip (py "._-") (sub_unsafe name))).
    + intros Fix. rewrite Fix in Hh, Hl. split.
      * destruct (head name) as [c|]; [by apply Hh | done].
      * destruct (last name) as [c|]; [by apply Hl | done].
    + by intros <-.
  - intros (Hm & Hh & Hl). unfold matches_safe_name in Hm.
    apply andb_true_iff in Hm as [Hne Hs].
    apply sanitize_filename_fixed.
    + by apply truthy_true.
    + apply Forall_forall. intros c Hc. rewrite forallb_forall in Hs.
      by apply Hs, list_elem_of_In.
    + intros c Hc. by rewrite Hc in Hh.
    + intros c Hc. by rewrite Hc in Hl.
Qed.




Lemma splitext_app (p : pystr) : (splitext p).1 ++ (splitext p).2 = p.
Proof.
  unfold splitext. destruct (contains _ _); [|apply app_nil_r].
  destruct (existsb _ _); [apply take_drop | apply app_nil_r].
Qed.






Lemma candidate_longer (filename : pystr) (k : nat) :
  (length filename < length (candidate filename (S k)))%nat.
Proof.
  rewrite candidate_succ. rewrite <- (splitext_app filename) at 1.
  rewrite !length_app. change (length (py "_")) with 1%nat. lia.
Qed.

(** X11: the names that [unique_filepath] tries are pairwise different,
    and each keeps the stem and the extension of the file name: stem and
    extension make up the file name, and the path returned is the
    directory joined with stem, extension and, between them, nothing or an
    underscore and the decimal digits of a counter that starts at 1. *)
Theorem unique_filepath_keeps_extension (fuel : nat) (fs : gmap pystr node)
    (directory filename p : pystr) :
  unique_filepath fuel fs directory filename = Some p →
  (splitext filename).1 ++ (splitext filename).2 = filename
  ∧ (∀ j k : nat, candidate filename j = candidate filename k → j = k)
  ∧ ∃ infix,
      p = path_join directory ((splitext filename).1 ++ infix ++ (splitext filename).2)
      ∧ (infix = [] ∨ ∃ i : N, 1 <= i ∧ infix = py "_" ++ str_of_N i).
Proof.
  intros U. split; [apply splitext_app|]. split.
  - intros [|j] [|k] H; [done | | | f_equal; by apply (candidate_inj filename)].
    + pose proof (candidate_longer filename k) as L. rewrite <- H in L. simpl in L. lia.
    + pose proof (candidate_longer filename j) as L. rewrite H in L. simpl in L. lia.
  - apply unique_filepath_sound in U as (_ & [|j] & ->).
    + exists []. split; [|by left]. cbn [candidate app]. by rewrite splitext_app.
    + exists (py "_" ++ str_of_N (N.of_nat (S j))). split.
      * by rewrite candidate_succ, <- !app_assoc.
      * right. exists (N.of_nat (S j)). split; [lia | done].
Qed.

Lemma unique_filepath_keeps_extension_run :
  ∃ infix,
    py "dir/a.tar_1.gz"
    = path_join (py "dir") ((splitext (py "a.tar.gz")).1 ++ infix ++ (splitext (py "a.tar.gz")).2)
    ∧ (infix = [] ∨ ∃ i : N, 1 <= i ∧ infix = py "_" ++ str_of_N i).
Proof.
  apply (unique_filepath_keeps_extension 2 {[ py "dir/a.tar.gz" := File [] ]}
           (py "dir") (py "a.tar.gz") (py "dir/a.tar_1.gz")).
  by vm_compute.
Defined.

(** X12: [generate_filename] puts exactly one dot before an extension
    given without one, so an extension gives the same name with and
    without its leading dot; and a generated name whose identifier and
    extension are made of safe characters and which does not end with [.],
    [_] or [-] goes through [sanitize_filename] unchanged. *)
Theorem generate_filename_sanitized (E : environment) (ext : pystr) :
  Forall (λ c, is_safe c = true) (uuid4_hex E) →
  Forall (λ c, is_safe c = true) ext →
  from_option (in_chars (py "._-")) false (last (generate_filename E ext)) = false →
  sanitize_filename (generate_filename E ext) = generate_filename E ext
  ∧ generate_filename E ext
    = generate_filename E
        (if truthy ext && negb (startswith ext (py ".")) then py "." ++ ext else ext).
Proof.
  intros Hh He Hl. split.
  - apply sanitize_filename_fixed.
    + rewrite generate_filename_run. discriminate.
    + rewrite generate_filename_run.
      apply Forall_app. split; [by repeat constructor|].
      apply Forall_app. split; [done|].
      destruct (_ && _); [|done]. apply Forall_app. split; [by repeat constructor | done].
    + rewrite generate_filename_run. by intros c [= <-].
    + intros c Hc. by rewrite Hc in Hl.
  - rewrite !generate_filename_run.
    destruct ext as [|c ext]; [done|]. cbn [truthy andb].
    destruct (startswith (c :: ext) (py ".")) eqn:S; cbn [negb]; rewrite ?S; [done|].
    reflexivity.
Qed.

Lemma generate_filename_sanitized_jpg :
  sanitize_filename
    (generate_filename (sample_env (Raise Timeout) (Raise Timeout)) (py "jpg"))
  = py "image_0123456789abcdef0123456789abcdef.jpg".
Proof.
  etrans.
  - apply (generate_filename_sanitized (sample_env (Raise Timeout) (Raise Timeout)) (py "jpg")).
    + apply Forall_forall. intros c Hc. apply list_elem_of_In in Hc.
      revert c Hc. apply forallb_forall. by vm_compute.
    + apply Forall_forall. intros c Hc. apply list_elem_of_In in Hc.
      revert c Hc. apply forallb_forall. by vm_compute.
    + by vm_compute.
  - by vm_compute.
Defined.

(** ** The media type *)

Lemma takewhile_map (p : N → bool) (f : N → N) (s : pystr) :
  (∀ c, p (f c) = p c) → takewhile p (map f s) = map f (takewhile p s).
Proof.
  intros H. induction s as [|c s IH]; [done|]. cbn [map takewhile].
  rewrite H. destruct (p c); [cbn [map]; by rewrite IH | done].
Qed.

Lemma dropwhile_map (p : N → bool) (f : N → N) (s : pystr) :
  (∀ c, p (f c) = p c) → dropwhile p (map f s) = map f (dropwhile p s).
Proof.
  intros H. induction s as [|c s IH]; [done|]. cbn [map dropwhile].
  rewrite H. by destruct (p c).
Qed.

(** A capital of [str.lower] is a letter: neither white space nor a
    semicolon, and so is its lower-case form, which is no capital. *)
Lemma lower_cp_capital (c : N) :
  lower_cp c ≠ c →
  65 <= c <= 90 ∨ 192 <= c <= 214 ∨ 216 <= c <= 222.
Proof.
  unfold lower_cp. change (ch "A") with 65. change (ch "Z") with 90.
  destruct (N.leb_spec 65 c), (N.leb_spec c 90), (N.leb_spec 192 c),
    (N.leb_spec c 214), (N.leb_spec 216 c), (N.leb_spec c 222);
    cbn [andb orb]; intros Hne; try done; lia.
Qed.

Lemma lower_cp_eq (c : N) :
  lower_cp c = c ∨
  (lower_cp c = c + 32 ∧ (65 <= c <= 90 ∨ 192 <= c <= 214 ∨ 216 <= c <= 222)).
Proof.
  destruct (N.eq_dec (lower_cp c) c) as [Heq|Hne]; [by left|]. right.
  split; [|by apply lower_cp_capital].
  unfold lower_cp in *. by destruct (_ || _).
Qed.

Ltac decide_ranges :=
  repeat match goal with
    | |- context [N.leb ?a ?b] => destruct (N.leb_spec a b); try lia
    | |- context [N.eqb ?a ?b] => destruct (N.eqb_spec a b); try lia
    end; try reflexivity.

Lemma lower_cp_idem (c : N) : lower_cp (lower_cp c) = lower_cp c.
Proof.
  destruct (lower_cp_eq c) as [Heq|[Heq R]]; rewrite Heq; [done|].
  unfold lower_cp. change (ch "A") with 65. change (ch "Z") with 90.
  destruct R as [R|[R|R]]; decide_ranges.
Qed.

Lemma lower_cp_space (c : N) : is_space (lower_cp c) = is_space c.
Proof.
  destruct (lower_cp_eq c) as [Heq|[Heq R]]; rewrite Heq; [done|].
  unfold is_space. destruct R as [R|[R|R]]; decide_ranges.
Qed.

Lemma lower_cp_is_not (d c : N) :
  d <= 64 → is_not d (lower_cp c) = is_not d c.
Proof.
  intros Hd. destruct (lower_cp_eq c) as [Heq|[Heq R]]; rewrite Heq; [done|].
  unfold is_not. destruct R as [R|[R|R]]; decide_ranges.
Qed.

Lemma main_type_of_lower (content_type : pystr) :
  main_type_of (str_lower content_type) = main_type_of content_type.
Proof.
  unfold main_type_of, str_strip_ws, before_first, str_lower.
  rewrite takewhile_map by (intros c; apply lower_cp_is_not; by vm_compute).
  rewrite dropwhile_map by apply lower_cp_space.
  rewrite <- map_rev, dropwhile_map by apply lower_cp_space.
  rewrite <- map_rev, map_map.
  apply map_ext. apply lower_cp_idem.
Qed.

Lemma below_256 (s : pystr) :
  forallb (λ c, c <? 256) s = true → Forall (λ c, c < 256) s.
Proof.
  intros H. apply Forall_forall. intros c Hc.
  rewrite forallb_forall in H. apply N.ltb_lt, H. by apply list_elem_of_In.
Qed.

(** X13: the guess of the extension does not depend on the case of the
    declared media type.  For a header value of code points below 256 (an
    HTTP header is decoded as ISO-8859-1, and [str.lower] is modelled
    exactly there), lowering the value first gives the same extension. *)
Theorem extension_case_insensitive (E : environment) (content_type : pystr) :
  Forall (λ c, c < 256) content_type →
  extension_from_content_type E (str_lower content_type)
  = extension_from_content_type E content_type
  ∧ Forall (λ c, c < 256) (str_lower content_type).
Proof.
  intros Latin. split.
  - unfold extension_from_content_type. rewrite main_type_of_lower.
    by destruct content_type.
  - unfold str_lower. apply Forall_forall. intros c Hc.
    apply list_elem_of_fmap in Hc as (d & -> & Hd).
    rewrite Forall_forall in Latin. specialize (Latin d Hd).
    destruct (lower_cp_eq d) as [Heq|[Heq R]]; rewrite Heq; lia.
Qed.

Lemma extension_case_insensitive_png :
  extension_from_content_type (sample_env (Raise Timeout) (Raise Timeout))
    (py "image/png; charset=binary")
  = extension_from_content_type (sample_env (Raise Timeout) (Raise Timeout))
      (py "IMAGE/Png; Charset=Binary").
Proof.
  apply (extension_case_insensitive (sample_env (Raise Timeout) (Raise Timeout))
           (py "IMAGE/Png; Charset=Binary")).
  apply below_256. reflexivity.
Defined.

(** X14: when every row of the type table is an extension that begins
    with a dot, as the rows of [mimetypes] do, the extension returned is
    empty or begins with a dot, whatever the header holds. *)
Theorem extension_empty_or_dotted (E : environment) (content_type : pystr) :
  (∀ main_type ext, guess_extension E main_type = Some ext →
     startswith ext (py ".") = true) →
  extension_from_content_type E content_type = []
  ∨ startswith (extension_from_content_type E content_type) (py ".") = true.
Proof.
  intros Rows. unfold extension_from_content_type.
  destruct (negb (truthy content_type)); [by left|]. cbv zeta.
  destruct (guess_extension E (main_type_of content_type)) as [ext|] eqn:G.
  - apply Rows in G. destruct ext as [|c ext]; [discriminate|]. cbn [truthy_opt truthy default].
    by right.
  - cbn [truthy_opt]. destruct (startswith _ (py "image/")); [by right | by left].
Qed.

Lemma extension_empty_or_dotted_sample :
  extension_from_content_type (sample_env (Raise Timeout) (Raise Timeout))
    (py "image/svg+xml; charset=utf-8") = []
  ∨ startswith
      (extension_from_content_type (sample_env (Raise Timeout) (Raise Timeout))
         (py "image/svg+xml; charset=utf-8")) (py ".") = true.
Proof.
  apply (extension_empty_or_dotted (sample_env (Raise Timeout) (Raise Timeout))).
  intros main_type ext. cbn [guess_extension sample_env]. unfold sample_types.
  repeat case_bool_decide; intros [= <-]; reflexivity.
Defined.

(** ** The fragment of a URL *)

Lemma split_scheme_fragment (u f : pystr) :
  contains u (ch "#") = false →
  split_scheme (u ++ ch "#" :: f)
  = ((split_scheme u).1, (split_scheme u).2 ++ ch "#" :: f).
Proof.
  intros Hu. unfold split_scheme.
  destruct (contains u (ch ":")) eqn:C.
  - pose proof (contains_split u (ch ":") C) as S.
    set (a := before_first (ch ":") u) in *. set (b := after_first (ch ":") u) in *.
    assert (Ha : contains a (ch ":") = false) by apply before_first_free.
    assert (E1 : before_first (ch ":") (u ++ ch "#" :: f) = a).
    { rewrite S, <- app_assoc. cbn [app]. by apply before_first_app. }
    assert (E2 : after_first (ch ":") (u ++ ch "#" :: f) = b ++ ch "#" :: f).
    { rewrite S at 1. rewrite <- app_assoc. cbn [app]. by apply after_first_app. }
    assert (E3 : hd 0 (u ++ ch "#" :: f) = hd 0 u).
    { destruct u; [discriminate | done]. }
    rewrite contains_app, C, E1, E2, E3. cbn [orb andb].
    by destruct (truthy a && is_ascii_alpha (hd 0 u) && forallb is_scheme_char a).
  - cbn [andb fst snd].
    destruct (contains (u ++ ch "#" :: f) (ch ":")); [|done]. cbn [andb].
    assert (F : forallb is_scheme_char (before_first (ch ":") (u ++ ch "#" :: f)) = false).
    { unfold before_first. rewrite takewhile_app_all by (by apply contains_false).
      rewrite forallb_app. apply andb_false_iff. right. reflexivity. }
    rewrite F. by rewrite !andb_false_r.
Qed.

Lemma splitnetloc_fragment (r f : pystr) :
  (if startswith (r ++ ch "#" :: f) (py "//")
   then splitnetloc (r ++ ch "#" :: f) else ([], r ++ ch "#" :: f))
  = let nr := if startswith r (py "//") then splitnetloc r else ([], r) in
    (nr.1, nr.2 ++ ch "#" :: f).
Proof.
  destruct r as [|c [|d r]].
  - reflexivity.
  - simpl. by rewrite andb_false_r.
  - change (startswith ((c :: d :: r) ++ ch "#" :: f) (py "//"))
      with (startswith (c :: d :: r) (py "//")).
    destruct (startswith (c :: d :: r) (py "//")); [|done].
    unfold splitnetloc.
    change (drop 2 ((c :: d :: r) ++ ch "#" :: f)) with (r ++ ch "#" :: f).
    change (drop 2 (c :: d :: r)) with r. cbn [fst snd].
    rewrite takewhile_app_cut, dropwhile_app_stop by reflexivity. reflexivity.
Qed.

Lemma urlsplit_fragment (E : environment) (u f : pystr) :
  contains u (ch "#") = false →
  urlsplit E (u ++ ch "#" :: f) = urlsplit E u.
Proof.
  intros Hh. unfold urlsplit, str_lstrip_by.
  rewrite dropwhile_app_stop by reflexivity.
  rewrite List.filter_app. cbn [List.filter].
  change (negb (is_unsafe_url_char (ch "#"))) with true. cbv iota.
  set (g := λ c, negb (is_unsafe_url_char c)).
  set (u1 := List.filter g (dropwhile is_c0_or_space u)).
  set (f1 := List.filter g f).
  assert (Hu1 : contains u1 (ch "#") = false).
  { apply contains_Forall_ne. apply contains_Forall_ne in Hh.
    by apply filter_Forall, dropwhile_Forall. }
  rewrite split_scheme_fragment by done.
  assert (Hr : contains (split_scheme u1).2 (ch "#") = false).
  { by apply contains_Forall_ne, split_scheme_Forall, contains_Forall_ne. }
  destruct (split_scheme u1) as [scheme r]. cbn [fst snd] in *.
  rewrite splitnetloc_fragment.
  assert (Hrest : contains (if startswith r (py "//") then splitnetloc r else ([], r)).2
                    (ch "#") = false).
  { by apply contains_Forall_ne, splitnetloc_Forall, contains_Forall_ne. }
  destruct (if startswith r (py "//") then splitnetloc r else ([], r)) as [netloc rest].
  cbn [fst snd] in *. cbv zeta.
  assert (A : contains (rest ++ ch "#" :: f1) (ch "#") = true).
  { rewrite contains_app. apply orb_true_r. }
  rewrite A, Hrest, before_first_app by done.
  reflexivity.
Qed.

(** X15: the fragment of a URL plays no part in the file name: adding
    [#fragment] to a URL without one gives the same result, a name, nothing
    or the same exception, whatever the fragment holds. *)
Theorem filename_from_url_fragment (E : environment) (u f : pystr) :
  contains u (ch "#") = false →
  filename_from_url E (u ++ ch "#" :: f) = filename_from_url E u.
Proof.
  intros Hh. unfold filename_from_url, urlparse_path.
  by rewrite urlsplit_fragment.
Qed.

Lemma filename_from_url_fragment_pic :
  filename_from_url (sample_env (Raise Timeout) (Raise Timeout))
    (py "https://example.com/pic.png?x=1" ++ ch "#" :: py "top/of?page")
  = Ok (Some (py "pic.png")).
Proof.
  etrans.
  - apply (filename_from_url_fragment (sample_env (Raise Timeout) (Raise Timeout))
             (py "https://example.com/pic.png?x=1") (py "top/of?page")).
    reflexivity.
  - reflexivity.
Defined.

(** ** When the URL gives no name, and when it gives a full one *)

Lemma basename_empty (path : pystr) :
  basename path = [] ↔ path = [] ∨ last path = Some (ch "/").
Proof.
  split.
  - intros B. destruct (after_last_spec (ch "/") path) as (pre & E & _ & P).
    fold (basename path) in E. rewrite B, app_nil_r in E. subst pre.
    exact P.
  - intros [-> | L]; [done|].
    unfold basename, after_last. rewrite <- head_rev in L.
    destruct (rev path) as [|c t]; [done|]. injection L as ->. reflexivity.
Qed.

(** X16: [filename_from_url] gives no name exactly when the URL is
    accepted and its path is empty or ends with a slash; these are the
    URLs for which [main] generates a random name. *)
Theorem filename_from_url_none (E : environment) (url : pystr) :
  filename_from_url E url = Ok None
  ↔ ∃ path, urlparse_path E url = Ok path ∧ (path = [] ∨ last path = Some (ch "/")).
Proof.
  unfold filename_from_url. split.
  - destruct (urlparse_path E url) as [path|e]; [|discriminate].
    destruct (truthy (basename path)) eqn:T; [discriminate|]. intros _.
    exists path. split; [done|]. apply basename_empty. by destruct (basename path).
  - intros (path & -> & P). apply basename_empty in P. by rewrite P.
Qed.

(** X17: a name with a dot is kept as the URL gives it.  When
    [filename_from_url] returns a name that holds a dot, the answer to the
    HEAD request, whatever it is, has no influence: the file name is this
    name, with the extension of the URL and not that of the declared
    type. *)
Theorem main_filename_keeps_dotted_name (E : environment) (url filename : pystr)
    (head : outcome) (w : world) :
  filename_from_url E url = Ok (Some filename) →
  contains filename (ch ".") = true →
  main_filename (with_head E head) url w = (Ok filename, w).
Proof.
  intros F D. rewrite main_filename_with_head, F.
  unfold composed_filename. rewrite D. cbn [negb andb].
  unfold filename_from_url in F.
  destruct (urlparse_path E url) as [path|e]; [|discriminate].
  destruct (truthy (basename path)); [|discriminate].
  injection F as <-. by rewrite sanitize_filename_idem.
Qed.

Lemma main_filename_keeps_dotted_name_png :
  main_filename
    (with_head (sample_env (Raise Timeout) (Raise Timeout))
       (Ok (bodyless 200 (Some (py "image/jpeg")))))
    (py "https://x/pic.png") fresh_world
  = (Ok (py "pic.png"), fresh_world).
Proof.
  apply (main_filename_keeps_dotted_name (sample_env (Raise Timeout) (Raise Timeout))
           (py "https://x/pic.png") (py "pic.png")); reflexivity.
Defined.
